(** * Android TV remote: the controller, the session cache and the routes of main.py

    A shallow embedding of [src/main.py].  The ADB client library and the
    identity provider are outside the repository; they appear here as an
    interface ([Transport]) whose operations may return or raise, and as the
    token handed to the callback.  Python objects that are shared and mutated
    (the [TVController] instances held by [tv_controller_cache]) live in a heap
    indexed by locations, so that object identity is visible. *)

From Stdlib Require Import ZArith String Ascii List Lia.
From stdpp Require Import base option list gmap strings pretty.

Local Open Scope Z_scope.
Local Open Scope string_scope.
Local Open Scope list_scope.

(** ** Python exceptions and outcomes *)

(** Only the position of an exception's class with respect to [Exception]
    matters to the handlers of main.py: [except Exception] takes the instances
    of [Exception], a bare [except:] takes every [BaseException]. *)
Inductive pyexc : Type :=
| PyException (what : string)      (* an instance of Exception *)
| PyBaseException (what : string). (* KeyboardInterrupt, SystemExit, GeneratorExit *)

Definition is_Exception (e : pyexc) : bool :=
  match e with
  | PyException _ => true
  | PyBaseException _ => false
  end.

Definition any_exception (e : pyexc) : bool := true.

Inductive outcome (A : Type) : Type :=
| Returned (a : A)
| Raised (e : pyexc).
Arguments Returned {A} a.
Arguments Raised {A} e.

(** ** A state monad with exceptions

    State changes made before an exception is raised stay: Python does not
    roll back mutations. *)
Definition M (S A : Type) : Type := S -> outcome A * S.

Definition ret {S A} (a : A) : M S A := fun s => (Returned a, s).

Definition raise {S A} (e : pyexc) : M S A := fun s => (Raised e, s).

Definition bind {S A B} (m : M S A) (k : A -> M S B) : M S B :=
  fun s =>
    match m s with
    | (Returned a, s') => k a s'
    | (Raised e, s') => (Raised e, s')
    end.

Definition gets {S A} (f : S -> A) : M S A := fun s => (Returned (f s), s).

Definition modify {S} (f : S -> S) : M S unit := fun s => (Returned tt, f s).

(** [try: body / except <class>: handler]: the handler runs on the state the
    body left, and only for the exceptions the clause selects. *)
Definition try_except {S A} (body : M S A) (catches : pyexc -> bool)
    (handler : pyexc -> M S A) : M S A :=
  fun s =>
    match body s with
    | (Returned a, s') => (Returned a, s')
    | (Raised e, s') => if catches e then handler e s' else (Raised e, s')
    end.

Notation "'let*' x ':=' m 'in' k" := (bind m (fun x => k))
  (at level 10, x name, m at level 100, k at level 200).
Notation "m ';;' k" := (bind m (fun _ => k))
  (at level 100, k at level 200, right associativity).

(** ** The device transport (ppadb's client and device objects) *)

(** A device handle as returned by the ADB client. *)
Definition Device : Type := nat.

(** [AdbClient(host=..., port=...)]: the address of the local ADB server. *)
Record AdbClient : Type := { server_host : string; server_port : Z }.

(** The three calls main.py makes on the library.  [W] is whatever state the
    outside world has; each call may change it.
    - [adb_connect c host port]: [c.connect(host, port)], a device or a falsy
      value ([None]);
    - [adb_get_serial_no d]: [d.get_serial_no()], a string or [None];
    - [adb_shell d cmd]: [d.shell(cmd)], the command's output. *)
Record Transport (W : Type) : Type := {
  adb_connect : AdbClient -> string -> Z -> W -> outcome (option Device) * W;
  adb_get_serial_no : Device -> W -> outcome (option string) * W;
  adb_shell : Device -> string -> W -> outcome string * W
}.
Arguments adb_connect {W} _ _ _ _ _.
Arguments adb_get_serial_no {W} _ _ _.
Arguments adb_shell {W} _ _ _ _.

(** Calls that reached the transport, oldest first.  A shell call records
    whether it returned ([true]) or raised ([false]). *)
Inductive event : Type :=
| EvConnect (host : string) (port : Z)
| EvSerial (d : Device)
| EvShell (d : Device) (cmd : string) (ok : bool).

Record World (W : Type) : Type := { tstate : W; trace : list event }.
Arguments tstate {W} _.
Arguments trace {W} _.

Definition record_call {W} (ev : event) (w' : W) (w : World W) : World W :=
  {| tstate := w'; trace := trace w ++ [ev] |}.

(** Truth value of what [get_serial_no()] returned. *)
Definition serial_truthy (s : option string) : bool :=
  match s with
  | Some EmptyString => false
  | Some _ => true
  | None => false
  end.

(** ** Key codes (main.py, lines 40-50) *)

Definition KEYCODE_POWER : Z := 26.
Definition KEYCODE_VOLUME_UP : Z := 24.
Definition KEYCODE_VOLUME_DOWN : Z := 25.
Definition KEYCODE_MUTE : Z := 164.
Definition KEYCODE_DPAD_UP : Z := 19.
Definition KEYCODE_DPAD_DOWN : Z := 20.
Definition KEYCODE_DPAD_LEFT : Z := 21.
Definition KEYCODE_DPAD_RIGHT : Z := 22.
Definition KEYCODE_DPAD_CENTER : Z := 23.
Definition KEYCODE_BACK : Z := 4.
Definition KEYCODE_HOME : Z := 3.

(** The dictionary literal of [TVController.navigate]. *)
Definition keycode_map : gmap string Z :=
  list_to_map
    [ ("up", KEYCODE_DPAD_UP); ("down", KEYCODE_DPAD_DOWN);
      ("left", KEYCODE_DPAD_LEFT); ("right", KEYCODE_DPAD_RIGHT);
      ("ok", KEYCODE_DPAD_CENTER); ("back", KEYCODE_BACK);
      ("home", KEYCODE_HOME) ].

(** The probe of [ensure_connected] and the two instruction formats. *)
Definition probe_cmd : string := "echo test".

Definition keyevent_cmd (keycode : Z) : string :=
  "input keyevent " +:+ pretty keycode.

Definition monkey_cmd (package_name : string) : string :=
  "monkey -p " +:+ package_name +:+ " -c android.intent.category.LAUNCHER 1".

(** ** class TVController *)

Record TVController : Type := {
  host : string;
  port : Z;
  client : AdbClient;
  device : option Device
}.

(** [TVController.__init__] *)
Definition new_TVController (h : string) (p : Z) : TVController :=
  {| host := h; port := p;
     client := {| server_host := "127.0.0.1"; server_port := 5037 |};
     device := None |}.

(** A method runs on its receiver and on the world. *)
Record Frame (W : Type) : Type := { self : TVController; world : World W }.
Arguments self {W} _.
Arguments world {W} _.

Definition set_device {W} (d : Device) : M (Frame W) unit :=
  modify (fun f =>
    {| self := {| host := host (self f); port := port (self f);
                  client := client (self f); device := Some d |};
       world := world f |}).

Section Controller.
Context {W : Type} (T : Transport W).

Definition call_connect (c : AdbClient) (h : string) (p : Z)
    : M (Frame W) (option Device) :=
  fun f =>
    let '(r, w') := adb_connect T c h p (tstate (world f)) in
    (r, {| self := self f; world := record_call (EvConnect h p) w' (world f) |}).

Definition call_get_serial_no (d : Device) : M (Frame W) (option string) :=
  fun f =>
    let '(r, w') := adb_get_serial_no T d (tstate (world f)) in
    (r, {| self := self f; world := record_call (EvSerial d) w' (world f) |}).

Definition call_shell (d : Device) (cmd : string) : M (Frame W) string :=
  fun f =>
    let '(r, w') := adb_shell T d cmd (tstate (world f)) in
    let ok := match r with Returned _ => true | Raised _ => false end in
    (r, {| self := self f; world := record_call (EvShell d cmd ok) w' (world f) |}).

(** [self.device.shell(cmd)]: on [None] the attribute lookup raises
    AttributeError before anything is sent. *)
Definition device_shell (cmd : string) : M (Frame W) string :=
  let* dev := gets (fun f => device (self f)) in
  match dev with
  | Some d => call_shell d cmd
  | None => raise (PyException "AttributeError")
  end.

(** [TVController.connect] (lines 61-72).  The logger calls are left out. *)
Definition connect : M (Frame W) bool :=
  try_except
    (let* me := gets self in
     let* dev := call_connect (client me) (host me) (port me) in
     match dev with
     | Some d =>
         let* serial := call_get_serial_no d in
         if serial_truthy serial
         then set_device d ;; ret true
         else ret false
     | None => ret false
     end)
    is_Exception
    (fun _ => ret false).

(** [TVController.ensure_connected] (lines 74-83); its handler is a bare
    [except:]. *)
Definition ensure_connected : M (Frame W) bool :=
  let* dev := gets (fun f => device (self f)) in
  match dev with
  | Some d =>
      try_except
        (call_shell d probe_cmd ;; ret true)
        any_exception
        (fun _ => connect)
  | None => connect
  end.

(** [TVController.send_keyevent] (lines 85-93) *)
Definition send_keyevent (keycode : Z) : M (Frame W) bool :=
  let* ok := ensure_connected in
  if negb ok then ret false
  else
    try_except
      (device_shell (keyevent_cmd keycode) ;; ret true)
      is_Exception
      (fun _ => ret false).

Definition power : M (Frame W) bool := send_keyevent KEYCODE_POWER.
Definition volume_up : M (Frame W) bool := send_keyevent KEYCODE_VOLUME_UP.
Definition volume_down : M (Frame W) bool := send_keyevent KEYCODE_VOLUME_DOWN.
Definition mute : M (Frame W) bool := send_keyevent KEYCODE_MUTE.

(** [TVController.navigate] (lines 107-122) *)
Definition navigate (direction : string) : M (Frame W) bool :=
  match keycode_map !! direction with
  | None => ret false
  | Some keycode => send_keyevent keycode
  end.

(** [TVController.launch_app] (lines 124-132) *)
Definition launch_app (package_name : string) : M (Frame W) bool :=
  let* ok := ensure_connected in
  if negb ok then ret false
  else
    try_except
      (device_shell (monkey_cmd package_name) ;; ret true)
      is_Exception
      (fun _ => ret false).

End Controller.

(** ** Python's [str.split] with a one-character separator

    [''.split(',')] is [['']]: the result always has at least one element. *)
Fixpoint split (s : string) (sep : ascii) : list string :=
  match s with
  | EmptyString => [EmptyString]
  | String c rest =>
      if Ascii.eqb c sep then EmptyString :: split rest sep
      else
        match split rest sep with
        | word :: words => String c word :: words
        | [] => [String c EmptyString]
        end
  end.

(** [os.getenv(key, default)] *)
Definition getenv (environ : gmap string string) (key default : string) : string :=
  match environ !! key with
  | Some v => v
  | None => default
  end.

(** The value line 37 gives [Config.ALLOWED_EMAILS]:
    [os.getenv('ALLOWED_EMAILS', '').split(',')]. *)
Definition Config_ALLOWED_EMAILS (environ : gmap string string) : list string :=
  split (getenv environ "ALLOWED_EMAILS" "") ","%char.

(** ** Users, responses, request bodies *)

Record User : Type := {
  user_id : string;
  user_email : string;
  user_name : string;
  user_picture : string
}.

(** [jsonify({'status': .., 'message': ..}), code] and [redirect(target)]. *)
Inductive Response : Type :=
| Json (code : Z) (status message : string)
| Redirect (target : string).

(** [@login_manager.unauthorized_handler] *)
Definition unauthorized (path : string) : Response :=
  if String.prefix "/api/" path
  then Json 401 "error" "Authentication required"
  else Redirect "/auth/login".

(** [@login_required]: [current_user] is [None] for the anonymous user. *)
Definition login_required {S} (path : string) (current_user : option User)
    (view : User -> M S Response) : M S Response :=
  match current_user with
  | Some u => view u
  | None => ret (unauthorized path)
  end.

(** What [request.get_json()] gave, for the requests covered here: [None]
    (the body [null]) or a JSON object whose members are strings.  Outside
    this type, and outside every statement about bodies below: a body that
    is a list, a string, a number or a boolean, an object with other
    members, and a request [get_json()] itself turns down (415, 400). *)
Definition json_body : Type := option (gmap string string).

(** [not data or key not in data] *)
Definition missing (data : json_body) (key : string) : bool :=
  match data with
  | None => true
  | Some d => bool_decide (d = ∅) || bool_decide (d !! key = None)
  end.

(** [d[key]] on a dictionary *)
Definition getitem {S A} (d : gmap string A) (key : string) : M S A :=
  match d !! key with
  | Some v => ret v
  | None => raise (PyException "KeyError")
  end.

(** ** The controller cache and the API blueprint *)

Record App (W : Type) : Type := {
  app_world : World W;
  heap : gmap nat TVController;
  tv_controller_cache : gmap string nat
}.
Arguments app_world {W} _.
Arguments heap {W} _.
Arguments tv_controller_cache {W} _.

(** The process starts with an empty cache (line 164). *)
Definition initial_app {W} (w : W) : App W :=
  {| app_world := {| tstate := w; trace := [] |}; heap := ∅;
     tv_controller_cache := ∅ |}.

(** A new object gets a location no live object has. *)
Definition alloc {W} (o : TVController) : M (App W) nat :=
  fun st =>
    let l := fresh (dom (heap st)) in
    (Returned l,
     {| app_world := app_world st; heap := <[l := o]> (heap st);
        tv_controller_cache := tv_controller_cache st |}).

(** A method call on the object at [l]: the method sees the object and the
    world, and what it leaves is stored back.  Python has no dangling
    reference; the [None] branch is there to make the function total. *)
Definition on_object {W A} (l : nat) (m : M (Frame W) A) : M (App W) A :=
  fun st =>
    match heap st !! l with
    | Some o =>
        let '(r, f) := m {| self := o; world := app_world st |} in
        (r, {| app_world := world f; heap := <[l := self f]> (heap st);
               tv_controller_cache := tv_controller_cache st |})
    | None => (Raised (PyException "ReferenceError"), st)
    end.

Definition cache_setitem {W} (key : string) (l : nat) : M (App W) unit :=
  modify (fun st =>
    {| app_world := app_world st; heap := heap st;
       tv_controller_cache := <[key := l]> (tv_controller_cache st) |}).

Module Api.


Section Routes.
Context {W : Type} (T : Transport W).
(** [current_app.config['ANDROID_TV_IP']] and [['ANDROID_TV_PORT']] *)
Context (ANDROID_TV_IP : string) (ANDROID_TV_PORT : Z).

(** [get_tv_controller] (lines 166-181); [None] is Python's [None]. *)
Definition get_tv_controller (current_user : User) : M (App W) (option nat) :=
  let uid := user_id current_user in
  let* cache := gets tv_controller_cache in
  match cache !! uid with
  | None =>
      let* controller := alloc (new_TVController ANDROID_TV_IP ANDROID_TV_PORT) in
      let* connected := on_object controller (connect T) in
      if connected then
        cache_setitem uid controller ;;
        let* cache := gets tv_controller_cache in
        let* c := getitem cache uid in
        ret (Some c)
      else ret None
  | Some _ =>
      let* c := getitem cache uid in
      ret (Some c)
  end.



Definition connect_failed : Response :=
  Json 500 "error" "Failed to connect to Android TV".

(** The part the six routes share: fetch the controller, call one method,
    report. *)
Definition relay (current_user : User) (method : M (Frame W) bool)
    (sent failed : string) : M (App W) Response :=
  let* controller := get_tv_controller current_user in
  match controller with
  | None => ret connect_failed
  | Some c =>
      let* success := on_object c method in
      if success then ret (Json 200 "success" sent)
      else ret (Json 500 "error" failed)
  end.

(** POST /api/tv/power (lines 266-287) *)
Definition power (current_user : option User) : M (App W) Response :=
  login_required "/api/tv/power" current_user (fun u =>
    relay u (power T)
      "Power command sent successfully" "Failed to send power command").

(** POST /api/tv/volume/up (lines 289-310) *)
Definition volume_up (current_user : option User) : M (App W) Response :=
  login_required "/api/tv/volume/up" current_user (fun u =>
    relay u (volume_up T)
      "Volume up command sent successfully" "Failed to send volume up command").

(** POST /api/tv/volume/down (lines 312-333) *)
Definition volume_down (current_user : option User) : M (App W) Response :=
  login_required "/api/tv/volume/down" current_user (fun u =>
    relay u (volume_down T)
      "Volume down command sent successfully"
      "Failed to send volume down command").

(** POST /api/tv/volume/mute (lines 335-356) *)
Definition volume_mute (current_user : option User) : M (App W) Response :=
  login_required "/api/tv/volume/mute" current_user (fun u =>
    relay u (mute T)
      "Mute command sent successfully" "Failed to send mute command").

(** POST /api/tv/app/launch (lines 358-388) *)
Definition launch_app (current_user : option User) (data : json_body)
    : M (App W) Response :=
  login_required "/api/tv/app/launch" current_user (fun u =>
    if missing data "package_name"
    then ret (Json 400 "error" "Missing package_name parameter")
    else
      let* package_name := getitem (default ∅ data) "package_name" in
      relay u (launch_app T package_name)
        ("App " +:+ package_name +:+ " launched successfully")
        ("Failed to launch app " +:+ package_name)).

Definition valid_directions : list string :=
  ["up"; "down"; "left"; "right"; "ok"; "back"; "home"].

(** [", ".join(valid_directions)] *)
Fixpoint join (sep : string) (l : list string) : string :=
  match l with
  | [] => ""
  | [x] => x
  | x :: rest => x +:+ sep +:+ join sep rest
  end.

(** POST /api/tv/navigate (lines 390-427) *)
Definition navigate (current_user : option User) (data : json_body)
    : M (App W) Response :=
  login_required "/api/tv/navigate" current_user (fun u =>
    if missing data "direction"
    then ret (Json 400 "error" "Missing direction parameter")
    else
      let* direction := getitem (default ∅ data) "direction" in
      if bool_decide (direction ∈ valid_directions)
      then
        relay u (navigate T direction)
          ("Navigate " +:+ direction +:+ " command sent successfully")
          ("Failed to send navigate " +:+ direction +:+ " command")
      else
        ret (Json 400 "error"
               ("Invalid direction. Must be one of: "
                +:+ join ", " valid_directions))).

End Routes.
End Api.

(** ** The auth blueprint: the OAuth callback *)

Module Auth.

(** The token of [oauth.google.authorize_access_token()]; only its
    ['userinfo'] member is read, a dictionary of claims when present. *)
Record Token : Type := { userinfo : option (gmap string string) }.

(** Flask's [session] and Flask-Login's logged-in user. *)
Record FlaskSession : Type := {
  session_user_info : option (gmap string string);
  logged_in : option User
}.

Definition store_user_info (ui : gmap string string) : M FlaskSession unit :=
  modify (fun s =>
    {| session_user_info := Some ui; logged_in := logged_in s |}).

Definition login_user (u : User) : M FlaskSession unit :=
  modify (fun s =>
    {| session_user_info := session_user_info s; logged_in := Some u |}).

(** [not user_info]: [None] and the empty dictionary are falsy. *)
Definition falsy (ui : option (gmap string string)) : bool :=
  match ui with
  | None => true
  | Some d => bool_decide (d = ∅)
  end.

Section Callback.
(** The class attribute [Config.ALLOWED_EMAILS]. *)
Context (ALLOWED_EMAILS : list string).

(** [Config.ALLOWED_EMAILS and user_info['email'] not in Config.ALLOWED_EMAILS]:
    a list is truthy when it is not empty, and [and] evaluates its right
    operand only then. *)
Definition email_refused (user_info : gmap string string) : M FlaskSession bool :=
  match ALLOWED_EMAILS with
  | [] => ret false
  | _ :: _ =>
      let* email := getitem user_info "email" in
      ret (negb (bool_decide (email ∈ ALLOWED_EMAILS)))
  end.

(** [callback] (lines 200-221).  [authorize_access_token] is what the token
    exchange with the identity provider gave, a token or an exception. *)
Definition callback (authorize_access_token : outcome Token)
    : M FlaskSession Response :=
  let* token := (fun s => (authorize_access_token, s)) in
  let user_info := userinfo token in
  if falsy user_info
  then ret (Json 400 "error" "Failed to get user info")
  else
    let ui := default ∅ user_info in
    let* refused := email_refused ui in
    if refused
    then ret (Json 403 "error" "Unauthorized email address")
    else
      store_user_info ui ;;
      let* sub := getitem ui "sub" in
      let* email := getitem ui "email" in
      let* name := getitem ui "name" in
      let picture := default "" (ui !! "picture") in
      login_user {| user_id := sub; user_email := email; user_name := name;
                    user_picture := picture |} ;;
      ret (Redirect "/").

End Callback.

(** [load_user] (lines 151-161), the user loader of Flask-Login.  [user_id]
    is [None] or a string; the empty string is falsy. *)
Definition load_user (user_id : option string) : M FlaskSession (option User) :=
  let* session := gets session_user_info in
  match user_id, session with
  | Some (String _ _), Some user_info =>
      let* sub := getitem user_info "sub" in
      let* email := getitem user_info "email" in
      let* name := getitem user_info "name" in
      let picture := default "" (user_info !! "picture") in
      ret (Some {| user_id := sub; user_email := email; user_name := name;
                   user_picture := picture |})
  | _, _ => ret None
  end.

(** Flask-Login's [logout_user()] and [session.pop('user_info', None)]. *)
Definition logout_user : M FlaskSession unit :=
  modify (fun s =>
    {| session_user_info := session_user_info s; logged_in := None |}).

Definition pop_user_info : M FlaskSession unit :=
  modify (fun s => {| session_user_info := None; logged_in := logged_in s |}).

(** [logout] (lines 223-228) *)
Definition logout (current_user : option User) : M FlaskSession Response :=
  login_required "/auth/logout" current_user (fun _ =>
    logout_user ;;
    pop_user_info ;;
    ret (Json 200 "success" "Logged out successfully")).

End Auth.

(** ** Commands and requests

    The vocabulary the statements below quantify over: the six controller
    methods a route can call, and the six POST routes. *)

Inductive command : Type :=
| Power
| VolumeUp
| VolumeDown
| Mute
| Navigate (direction : string)
| LaunchApp (package_name : string).

Inductive request : Type :=
| PostPower
| PostVolumeUp
| PostVolumeDown
| PostVolumeMute
| PostAppLaunch (data : json_body)
| PostNavigate (data : json_body).

(** The shell instruction a command stands for; a direction outside
    [keycode_map] stands for none. *)
Definition instruction (c : command) : option string :=
  match c with
  | Power => Some (keyevent_cmd KEYCODE_POWER)
  | VolumeUp => Some (keyevent_cmd KEYCODE_VOLUME_UP)
  | VolumeDown => Some (keyevent_cmd KEYCODE_VOLUME_DOWN)
  | Mute => Some (keyevent_cmd KEYCODE_MUTE)
  | Navigate direction =>
      match keycode_map !! direction with
      | Some keycode => Some (keyevent_cmd keycode)
      | None => None
      end
  | LaunchApp package_name => Some (monkey_cmd package_name)
  end.

(** A request carries a command when its body passes the route's checks. *)
Inductive carries : request -> command -> Prop :=
| carries_power : carries PostPower Power
| carries_volume_up : carries PostVolumeUp VolumeUp
| carries_volume_down : carries PostVolumeDown VolumeDown
| carries_mute : carries PostVolumeMute Mute
| carries_launch (data : gmap string string) (package_name : string) :
    data !! "package_name" = Some package_name ->
    carries (PostAppLaunch (Some data)) (LaunchApp package_name)
| carries_navigate (data : gmap string string) (direction : string) :
    data !! "direction" = Some direction ->
    direction ∈ Api.valid_directions ->
    carries (PostNavigate (Some data)) (Navigate direction).

Section Dispatch.
Context {W : Type} (T : Transport W).

(** The controller method behind each command. *)
Definition invoke (c : command) : M (Frame W) bool :=
  match c with
  | Power => power T
  | VolumeUp => volume_up T
  | VolumeDown => volume_down T
  | Mute => mute T
  | Navigate direction => navigate T direction
  | LaunchApp package_name => launch_app T package_name
  end.

Context (ANDROID_TV_IP : string) (ANDROID_TV_PORT : Z).

(** Flask's routing of the six POST routes. *)
Definition handle (current_user : option User) (req : request)
    : M (App W) Response :=
  match req with
  | PostPower => Api.power T ANDROID_TV_IP ANDROID_TV_PORT current_user
  | PostVolumeUp => Api.volume_up T ANDROID_TV_IP ANDROID_TV_PORT current_user
  | PostVolumeDown => Api.volume_down T ANDROID_TV_IP ANDROID_TV_PORT current_user
  | PostVolumeMute => Api.volume_mute T ANDROID_TV_IP ANDROID_TV_PORT current_user
  | PostAppLaunch data =>
      Api.launch_app T ANDROID_TV_IP ANDROID_TV_PORT current_user data
  | PostNavigate data =>
      Api.navigate T ANDROID_TV_IP ANDROID_TV_PORT current_user data
  end.

(** Requests handled one after the other, each by its own user; the state an
    unhandled exception leaves is the state the next request finds. *)
Fixpoint serve (reqs : list (option User * request)) (st : App W) : App W :=
  match reqs with
  | [] => st
  | (u, req) :: rest => serve rest (snd (handle u req st))
  end.




End Dispatch.

(** ** Reading a trace *)

Definition is_connect (ev : event) : bool :=
  match ev with EvConnect _ _ => true | _ => false end.

Definition is_shell (ev : event) : bool :=
  match ev with EvShell _ _ _ => true | _ => false end.

Definition is_probe (ev : event) : bool :=
  match ev with EvShell _ cmd _ => String.eqb cmd probe_cmd | _ => false end.

(** A shell call other than the probe: a key event or a launch. *)
Definition is_instruction (ev : event) : bool :=
  match ev with
  | EvShell _ cmd _ => negb (String.eqb cmd probe_cmd)
  | _ => false
  end.

Definition completed (ev : event) : bool :=
  match ev with EvShell _ _ ok => ok | _ => true end.

(** Every shell call over the connection, the probe included. *)
Definition transport_writes (tr : list event) : nat :=
  length (List.filter is_shell tr).

Definition connect_attempts (tr : list event) : list event :=
  List.filter is_connect tr.

Definition probes (tr : list event) : list event := List.filter is_probe tr.

Definition instructions (tr : list event) : list event :=
  List.filter is_instruction tr.

(** ** Vocabulary of the statements *)

(** What a run added to the trace, summed up for the answer [r]. *)
Definition outcome_summary (i : string) (r : outcome bool) (delta : list event)
    : Prop :=
  match r with
  | Returned true =>
      transport_writes delta = 2%nat /\
      exists d, instructions delta = [EvShell d i true]
  | Returned false => List.filter completed (instructions delta) = []
  | Raised e =>
      is_Exception e = false /\ List.filter completed (instructions delta) = []
  end.


Section Vocabulary.
Context {W : Type} (T : Transport W).

(** [send_keyevent] and [launch_app] have one shape: make sure of the
    connection, then one shell call under [except Exception]. *)
Definition dispatch_shell (cmd : string) : M (Frame W) bool :=
  let* ok := ensure_connected T in
  if negb ok then ret false
  else
    try_except
      (device_shell T cmd ;; ret true)
      is_Exception
      (fun _ => ret false).

(** [power] called [n] times in a row, results in call order. *)
Fixpoint repeat_power (n : nat) : M (Frame W) (list bool) :=
  match n with
  | O => ret []
  | S k =>
      let* b := power T in
      let* bs := repeat_power k in
      ret (b :: bs)
  end.

(** [m] is [ensure_connected] and then, when that returned [True], one shell
    call of [cmd] on the device the controller then holds: [True] when the
    call returns, [False] when it raises an [Exception], the exception
    itself otherwise.  When [ensure_connected] did not return [True], [m]
    ends as it did and sends nothing. *)
Definition sends_instruction (m : M (Frame W) bool) (cmd : string) : Prop :=
  forall f : Frame W,
    let '(r1, f1) := ensure_connected T f in
    match r1 with
    | Returned true =>
        exists d,
          device (self f1) = Some d /\
          let '(res, w2) := adb_shell T d cmd (tstate (world f1)) in
          m f =
            (match res with
             | Returned _ => Returned true
             | Raised e => if is_Exception e then Returned false else Raised e
             end,
             {| self := self f1;
                world :=
                  record_call
                    (EvShell d cmd
                       match res with Returned _ => true | Raised _ => false end)
                    w2 (world f1) |})
    | Returned false => m f = (Returned false, f1)
    | Raised e => m f = (Raised e, f1)
    end.

(** The transport raises what Python libraries raise: instances of
    [Exception]. *)
Definition raises_only_Exception : Prop :=
  (forall c h p w e, fst (adb_connect T c h p w) = Raised e -> is_Exception e = true) /\
  (forall d w e, fst (adb_get_serial_no T d w) = Raised e -> is_Exception e = true) /\
  (forall d cmd w e, fst (adb_shell T d cmd w) = Raised e -> is_Exception e = true).

Definition returns_bool (m : M (Frame W) bool) : Prop :=
  forall f, exists b, fst (m f) = Returned b.

(** A method leaves a connected controller connected, at the same address. *)
Definition stays_connected (m : M (Frame W) bool) : Prop :=
  forall h p cl d w,
    exists d',
      self (snd (m {| self := {| host := h; port := p; client := cl;
                                 device := Some d |};
                      world := w |}))
      = {| host := h; port := p; client := cl; device := Some d' |}.

Context (ANDROID_TV_IP : string) (ANDROID_TV_PORT : Z).

(** The frame in which [get_tv_controller] runs [connect] for a new user. *)
Definition first_frame (st : App W) : Frame W :=
  {| self := new_TVController ANDROID_TV_IP ANDROID_TV_PORT;
     world := app_world st |}.

(** Every [connect] comes back [False] and every probe raises. *)
Definition unreachable : Prop :=
  (forall f, fst (connect T f) = Returned false) /\
  (forall d w, exists e, fst (adb_shell T d probe_cmd w) = Raised e).

(** Every cached location holds an object. *)
Definition cache_wf (st : App W) : Prop :=
  forall uid l, tv_controller_cache st !! uid = Some l -> is_Some (heap st !! l).

(** The user's entry is a controller whose device answers the probe. *)
Definition live_entry (st : App W) (uid : string) : Prop :=
  exists l o d out w',
    tv_controller_cache st !! uid = Some l /\
    heap st !! l = Some o /\
    device o = Some d /\
    adb_shell T d probe_cmd (tstate (app_world st)) = (Returned out, w').

(** What the transport answers to a first connect and to the probe that
    follows it: a device, a serial number, the probe's output. *)
Definition connect_and_probe_succeed (st : App W) (d : Device) (w3 : W) : Prop :=
  exists serial out w1 w2,
    adb_connect T {| server_host := "127.0.0.1"; server_port := 5037 |}
      ANDROID_TV_IP ANDROID_TV_PORT (tstate (app_world st))
      = (Returned (Some d), w1) /\
    adb_get_serial_no T d w1 = (Returned serial, w2) /\
    serial_truthy serial = true /\
    adb_shell T d probe_cmd w2 = (Returned out, w3).

(** Every entry of the cache is an object that holds a device and was built
    for the configured host and port. *)
Definition cache_connected (st : App W) : Prop :=
  forall uid l,
    tv_controller_cache st !! uid = Some l ->
    exists d,
      heap st !! l =
        Some {| host := ANDROID_TV_IP; port := ANDROID_TV_PORT;
                client := {| server_host := "127.0.0.1"; server_port := 5037 |};
                device := Some d |}.

(** No two users share a controller object. *)
Definition cache_injective (st : App W) : Prop :=
  forall uid1 uid2 l,
    tv_controller_cache st !! uid1 = Some l ->
    tv_controller_cache st !! uid2 = Some l ->
    uid1 = uid2.

End Vocabulary.

(** ** Transports, states and users to run the model on *)

(** Every call succeeds. *)
Definition steady : Transport unit :=
  {| adb_connect := fun _ _ _ w => (Returned (Some 1%nat), w);
     adb_get_serial_no := fun _ w => (Returned (Some "192.168.1.100:5555"), w);
     adb_shell := fun _ _ w => (Returned "", w) |}.

(** Nothing answers: connecting and every shell call raise. *)
Definition dead : Transport unit :=
  {| adb_connect := fun _ _ _ w => (Raised (PyException "RuntimeError"), w);
     adb_get_serial_no := fun _ w => (Raised (PyException "RuntimeError"), w);
     adb_shell := fun _ _ w => (Raised (PyException "RuntimeError"), w) |}.

(** The state says whether the link is up; a shell call needs it up, and
    connecting brings it up, handing out device 2. *)
Definition flaky : Transport bool :=
  {| adb_connect := fun _ _ _ _ => (Returned (Some 2%nat), true);
     adb_get_serial_no := fun _ w => (Returned (Some "192.168.1.100:5555"), w);
     adb_shell := fun _ _ (up : bool) =>
       if up then (Returned "", up)
       else (Raised (PyException "RuntimeError"), up) |}.

(** The link is up, and the device stops answering at the first key event or
    launch. *)
Definition drops_instruction : Transport unit :=
  {| adb_connect := fun _ _ _ w => (Returned (Some 1%nat), w);
     adb_get_serial_no := fun _ w => (Returned (Some "192.168.1.100:5555"), w);
     adb_shell := fun _ cmd w =>
       if String.eqb cmd probe_cmd then (Returned "test", w)
       else (Raised (PyException "RuntimeError"), w) |}.

(** An interrupt arrives while the client is connecting. *)
Definition interrupted : Transport unit :=
  {| adb_connect := fun _ _ _ w => (Raised (PyBaseException "KeyboardInterrupt"), w);
     adb_get_serial_no := fun _ w => (Returned (Some "192.168.1.100:5555"), w);
     adb_shell := fun _ _ w => (Returned "", w) |}.

(** The probe is answered, and an interrupt arrives during the key event or
    the launch. *)
Definition interrupted_write : Transport unit :=
  {| adb_connect := fun _ _ _ w => (Returned (Some 1%nat), w);
     adb_get_serial_no := fun _ w => (Returned (Some "192.168.1.100:5555"), w);
     adb_shell := fun _ cmd w =>
       if String.eqb cmd probe_cmd then (Returned "test", w)
       else (Raised (PyBaseException "KeyboardInterrupt"), w) |}.

Definition fresh_world : World unit := {| tstate := tt; trace := [] |}.

(** A controller whose [device] is device 1, as [connect] leaves it. *)
Definition connected_controller : TVController :=
  {| host := "192.168.1.100"; port := 5555;
     client := {| server_host := "127.0.0.1"; server_port := 5037 |};
     device := Some 1%nat |}.

Definition alice : User :=
  {| user_id := "1001"; user_email := "alice@example.com";
     user_name := "Alice"; user_picture := "" |}.

(** Alice has an entry from an earlier request; its device is device 1. *)
Definition stale_app : App unit :=
  {| app_world := fresh_world;
     heap := {[ 0%nat := connected_controller ]};
     tv_controller_cache := {[ "1001" := 0%nat ]} |}.


(** The token the identity provider issues for Alice. *)
Definition alice_token : Auth.Token :=
  {| Auth.userinfo :=
       Some (list_to_map [("sub", "1001"); ("email", "alice@example.com");
                          ("name", "Alice")]) |}.

Definition no_session : Auth.FlaskSession :=
  {| Auth.session_user_info := None; Auth.logged_in := None |}.

(** * Facts about the controller *)

Section ControllerFacts.
Context {W : Type} (T : Transport W).

Lemma send_keyevent_shape (keycode : Z) :
  send_keyevent T keycode = dispatch_shell T (keyevent_cmd keycode).
Proof. reflexivity. Qed.

Lemma launch_app_shape (package_name : string) :
  launch_app T package_name = dispatch_shell T (monkey_cmd package_name).
Proof. reflexivity. Qed.

Lemma invoke_instruction (c : command) (i : string) :
  instruction c = Some i -> invoke T c = dispatch_shell T i.
Proof.
  destruct c; simpl; try (intros [= <-]; reflexivity).
  unfold navigate. destruct (keycode_map !! direction); intros [= <-]; reflexivity.
Qed.

Lemma invoke_no_instruction (c : command) :
  instruction c = None -> invoke T c = ret false.
Proof.
  destruct c; simpl; try discriminate.
  unfold navigate. destruct (keycode_map !! direction); [discriminate | reflexivity].
Qed.

End ControllerFacts.

Lemma keyevent_cmd_not_probe (keycode : Z) :
  String.eqb (keyevent_cmd keycode) probe_cmd = false.
Proof. reflexivity. Qed.

Lemma monkey_cmd_not_probe (package_name : string) :
  String.eqb (monkey_cmd package_name) probe_cmd = false.
Proof. reflexivity. Qed.

Lemma instruction_not_probe (c : command) (i : string) :
  instruction c = Some i -> String.eqb i probe_cmd = false.
Proof.
  destruct c; simpl; try (intros [= <-]; reflexivity).
  destruct (keycode_map !! direction); intros [= <-]; reflexivity.
Qed.

(** ** Proof steps shared by the facts below *)

Ltac unfold_m :=
  unfold dispatch_shell, ensure_connected, connect, device_shell, call_shell,
    call_connect, call_get_serial_no, set_device, try_except, bind, ret,
    raise, gets, modify, record_call, any_exception in *.

(** Case analysis on every call that reaches the transport. *)
Ltac crack :=
  repeat (simpl in *;
    match goal with
    | |- context [adb_connect ?T ?c ?h ?p ?w] =>
        destruct (adb_connect T c h p w) as [[[?|]|[?|?]] ?] eqn:?
    | |- context [adb_get_serial_no ?T ?d ?w] =>
        destruct (adb_get_serial_no T d w) as [[?|[?|?]] ?] eqn:?
    | |- context [adb_shell ?T ?d ?c ?w] =>
        destruct (adb_shell T d c w) as [[?|[?|?]] ?] eqn:?
    | |- context [serial_truthy ?s] => destruct (serial_truthy s) eqn:?
    end).

(** Exhibit what a run appended to the trace. *)
Ltac split_trace :=
  first
    [ exists []; split; [simpl; rewrite app_nil_r; reflexivity |]
    | eexists; split; [simpl; rewrite <- ?app_assoc; reflexivity |] ].

Lemma keycode_map_outside (direction : string) :
  direction ∉ Api.valid_directions -> keycode_map !! direction = None.
Proof.
  intros H. apply not_elem_of_list_to_map_1. exact H.
Qed.

Lemma keycode_map_inside (direction : string) :
  direction ∈ Api.valid_directions -> is_Some (keycode_map !! direction).
Proof.
  unfold Api.valid_directions. rewrite !elem_of_cons, elem_of_nil.
  intros [-> | [-> | [-> | [-> | [-> | [-> | [-> | []]]]]]]]; vm_compute; eauto.
Qed.

Section DispatchFacts.
Context {W : Type} (T : Transport W).

(** What one call of a controller method adds to the trace. *)
Lemma invoke_trace (c : command) (f : Frame W) :
  let '(r, f') := invoke T c f in
  exists delta,
    trace (world f') = trace (world f) ++ delta /\
    match instruction c with
    | None => r = Returned false /\ delta = []
    | Some i =>
        length (probes delta) =
          match device (self f) with Some _ => 1%nat | None => 0%nat end /\
        (r = Returned true ->
           exists d, device (self f') = Some d /\
             instructions delta = [EvShell d i true]) /\
        (r <> Returned true ->
           instructions delta = [] \/
           exists d, instructions delta = [EvShell d i false])
    end.
Proof.
  destruct (instruction c) as [i|] eqn:Hi.
  - rewrite (invoke_instruction T _ _ Hi).
    pose proof (instruction_not_probe _ _ Hi) as Hp.
    destruct f as [[h p cl [d|]] [w tr]]; unfold_m; crack.
    all: split_trace.
    all: unfold instructions, probes; simpl; rewrite ?Hp; simpl.
    all: split; [reflexivity |].
    all: split; [intros [=]; eauto | intros Hne; first [congruence | eauto]].
  - rewrite (invoke_no_instruction T _ Hi). simpl.
    exists []. rewrite app_nil_r. auto.
Qed.

Lemma repeat_power_trace (n : nat) :
  forall f : Frame W,
    let '(r, f') := repeat_power T n f in
    r = Returned (replicate n true) ->
    exists delta,
      trace (world f') = trace (world f) ++ delta /\
      length (instructions delta) = n.
Proof.
  induction n as [|n IH]; intros f; simpl.
  - intros _. exists []. rewrite app_nil_r. auto.
  - unfold bind at 1.
    pose proof (invoke_trace Power f) as Hstep. simpl in Hstep.
    destruct (power T f) as [[b|e] f1]; [| discriminate].
    unfold bind at 1. specialize (IH f1).
    destruct (repeat_power T n f1) as [[bs|e] f2]; [| discriminate].
    unfold ret. intros [= -> ->].
    destruct Hstep as (delta1 & Ht1 & _ & Hone & _).
    destruct (Hone eq_refl) as (d & _ & Hi1).
    destruct (IH eq_refl) as (delta2 & Ht2 & Hn).
    exists (delta1 ++ delta2). split.
    + rewrite Ht2, Ht1, app_assoc. reflexivity.
    + unfold instructions in *. rewrite List.filter_app, length_app, Hi1, Hn.
      reflexivity.
Qed.

(** C1, as amended.  Each successful call of a controller method writes
    exactly one instruction (the key event or the launch) over the
    controller's device, and no instruction completes on a failing call: none
    is sent, or the one sent raised.  The probe of [ensure_connected] is a
    shell call of its own, made exactly once by every call that starts with a
    device handle, so a successful call makes two shell calls there and one
    on a controller without a device.  [n] successful [power] calls in a row
    write [n] key events. *)
Theorem dispatch_writes_one_instruction :
  (forall (c : command) (f : Frame W),
     let '(r, f') := invoke T c f in
     exists delta,
       trace (world f') = trace (world f) ++ delta /\
       (r = Returned true ->
          exists d i, instruction c = Some i /\ device (self f') = Some d /\
            instructions delta = [EvShell d i true] /\
            transport_writes delta =
              match device (self f) with Some _ => 2%nat | None => 1%nat end) /\
       (r <> Returned true ->
          List.filter completed (instructions delta) = [] /\
          (length (instructions delta) <= 1)%nat)) /\
  (forall (n : nat) (f : Frame W),
     let '(r, f') := repeat_power T n f in
     r = Returned (replicate n true) ->
     exists delta,
       trace (world f') = trace (world f) ++ delta /\
       length (instructions delta) = n).
Proof.
  split; [| exact repeat_power_trace].
  intros c f.
  destruct (instruction c) as [i|] eqn:Hi.
  - rewrite (invoke_instruction T _ _ Hi).
    pose proof (instruction_not_probe _ _ Hi) as Hp.
    destruct f as [[h p cl [d|]] [w tr]]; unfold_m; crack.
    all: split_trace.
    all: unfold instructions, transport_writes; simpl; rewrite ?Hp; simpl.
    all: split;
      [ intros [=]; eauto 6
      | intros Hne; first [congruence | split; [reflexivity | lia]] ].
  - rewrite (invoke_no_instruction T _ Hi). simpl.
    exists []. rewrite app_nil_r. split; [auto |].
    split; [discriminate |]. intros _. split; [reflexivity | simpl; lia].
Qed.

(** C2.  A call on a controller that holds a device whose probe raises makes
    exactly one [connect] attempt, to the controller's own host and port.
    When that attempt succeeds the instruction is sent, once, to the new
    device; when it returns [False] the call returns [False] and no
    instruction is sent; an exception [connect] lets through ends the call
    the same way, nothing sent. *)
Theorem stale_probe_reconnects_once (c : command) (f : Frame W) (d : Device)
    (i : string) (e : pyexc) (w1 : W) :
  device (self f) = Some d ->
  instruction c = Some i ->
  adb_shell T d probe_cmd (tstate (world f)) = (Raised e, w1) ->
  let f1 := {| self := self f;
               world := record_call (EvShell d probe_cmd false) w1 (world f) |} in
  let '(reconnected, _) := connect T f1 in
  let '(r, f') := invoke T c f in
  exists delta,
    trace (world f') = trace (world f) ++ delta /\
    connect_attempts delta = [EvConnect (host (self f)) (port (self f))] /\
    match reconnected with
    | Returned true =>
        exists d' ok, device (self f') = Some d' /\
          instructions delta = [EvShell d' i ok] /\
          (r = Returned true <-> ok = true)
    | Returned false => r = Returned false /\ instructions delta = []
    | Raised e' => r = Raised e' /\ instructions delta = []
    end.
Proof.
  intros Hd Hi Hprobe.
  rewrite (invoke_instruction T _ _ Hi).
  pose proof (instruction_not_probe _ _ Hi) as Hp.
  destruct f as [[h p cl dev] [w tr]]; simpl in *; subst dev.
  unfold_m; simpl. rewrite Hprobe. crack.
  all: split_trace.
  all: unfold instructions, connect_attempts; simpl; rewrite ?Hp; simpl.
  all: split; [reflexivity |].
  all: try (split; reflexivity).
  all: do 2 eexists; split; [reflexivity |]; split; [reflexivity |].
  all: split; congruence.
Qed.

End DispatchFacts.

(** C1 as stated, with the probe counted as a write, fails on both sides:
    on a live session a successful [power] is two shell calls, the probe and
    the key event, and a key event that raises leaves two shell calls behind
    a [False]. *)
Lemma probe_counts_as_a_write :
  (let '(r, f') :=
     invoke steady Power {| self := connected_controller; world := fresh_world |} in
   r = Returned true /\ transport_writes (trace (world f')) = 2%nat) /\
  (let '(r, f') :=
     invoke drops_instruction Power
       {| self := connected_controller; world := fresh_world |} in
   r = Returned false /\ transport_writes (trace (world f')) = 2%nat).
Proof. split; vm_compute; split; reflexivity. Qed.

Lemma stale_probe_reconnects_once_witness :
  let f := {| self := connected_controller;
              world := {| tstate := false; trace := [] |} |} in
  let '(r, f') := invoke flaky Power f in
  exists delta,
    trace (world f') = trace (world f) ++ delta /\
    connect_attempts delta = [EvConnect "192.168.1.100" 5555] /\
    exists d' ok, device (self f') = Some d' /\
      instructions delta = [EvShell d' "input keyevent 26" ok] /\
      (r = Returned true <-> ok = true).
Proof.
  exact (stale_probe_reconnects_once flaky Power
           {| self := connected_controller;
              world := {| tstate := false; trace := [] |} |}
           1%nat "input keyevent 26" (PyException "RuntimeError") false
           eq_refl eq_refl eq_refl).
Defined.

(** ** Key codes and validation *)

Section KeycodeFacts.
Context {W : Type} (T : Transport W).

(** The probe and a reconnect send no instruction. *)
Lemma ensure_connected_sends_nothing (f : Frame W) :
  let '(r1, f1) := ensure_connected T f in
  exists delta,
    trace (world f1) = trace (world f) ++ delta /\
    instructions delta = [] /\
    (r1 = Returned true -> exists d, device (self f1) = Some d).
Proof.
  destruct f as [[h p cl [d|]] [w tr]]; unfold_m; crack.
  all: split_trace.
  all: split; [reflexivity |].
  all: intros [=]; eauto.
Qed.

(** C8.  Each fixed command makes sure of the connection and then sends
    exactly its key code, as one [input keyevent <code>] shell call on the
    device the controller holds: power 26, volume up 24, volume down 25,
    mute 164, up 19, down 20, left 21, right 22, ok 23, back 4, home 3.
    The call is made whenever [ensure_connected] returned [True], and it is
    the only instruction of the run: the probe and a reconnect send none. *)
Theorem fixed_commands_send_their_keycode :
  (sends_instruction T (power T) "input keyevent 26" /\
   sends_instruction T (volume_up T) "input keyevent 24" /\
   sends_instruction T (volume_down T) "input keyevent 25" /\
   sends_instruction T (mute T) "input keyevent 164" /\
   sends_instruction T (navigate T "up") "input keyevent 19" /\
   sends_instruction T (navigate T "down") "input keyevent 20" /\
   sends_instruction T (navigate T "left") "input keyevent 21" /\
   sends_instruction T (navigate T "right") "input keyevent 22" /\
   sends_instruction T (navigate T "ok") "input keyevent 23" /\
   sends_instruction T (navigate T "back") "input keyevent 4" /\
   sends_instruction T (navigate T "home") "input keyevent 3") /\
  (KEYCODE_POWER = 26 /\ KEYCODE_VOLUME_UP = 24 /\ KEYCODE_VOLUME_DOWN = 25 /\
   KEYCODE_MUTE = 164 /\ KEYCODE_DPAD_UP = 19 /\ KEYCODE_DPAD_DOWN = 20 /\
   KEYCODE_DPAD_LEFT = 21 /\ KEYCODE_DPAD_RIGHT = 22 /\
   KEYCODE_DPAD_CENTER = 23 /\ KEYCODE_BACK = 4 /\ KEYCODE_HOME = 3) /\
  (forall keycode : Z,
     sends_instruction T (send_keyevent T keycode)
       ("input keyevent " +:+ pretty keycode)) /\
  (forall f : Frame W,
     let '(_, f1) := ensure_connected T f in
     exists delta,
       trace (world f1) = trace (world f) ++ delta /\ instructions delta = []) /\
  (forall (keycode : Z) (f : Frame W),
     let '(r, f') := send_keyevent T keycode f in
     r = Returned true ->
     exists d delta,
       device (self f') = Some d /\
       trace (world f') = trace (world f) ++ delta /\
       instructions delta =
         [EvShell d ("input keyevent " +:+ pretty keycode) true]).
Proof.
  assert (Hsend : forall cmd, sends_instruction T (dispatch_shell T cmd) cmd).
  { intros cmd f. unfold dispatch_shell, bind.
    pose proof (ensure_connected_sends_nothing f) as Hens.
    destruct (ensure_connected T f) as [[[|]|e] [o1 w1]]; try reflexivity.
    destruct Hens as (_ & _ & _ & Hdev). destruct (Hdev eq_refl) as [d Hd].
    exists d. split; [exact Hd |]. simpl in Hd.
    unfold try_except, device_shell, call_shell, bind, gets, ret. simpl.
    rewrite Hd. simpl.
    destruct (adb_shell T d cmd (tstate w1)) as [[out|[what|what]] w2];
      reflexivity. }
  split; [repeat split; exact (Hsend _) |].
  split; [repeat split; reflexivity |].
  split; [intros keycode; exact (Hsend _) |].
  split.
  { intros f. pose proof (ensure_connected_sends_nothing f) as Hens.
    destruct (ensure_connected T f) as [r1 f1].
    destruct Hens as (delta & Ht & Hi & _). eauto. }
  intros keycode f. rewrite send_keyevent_shape.
  pose proof (keyevent_cmd_not_probe keycode) as Hp.
  fold (keyevent_cmd keycode). generalize dependent (keyevent_cmd keycode).
  intros i Hp.
  destruct f as [[h p cl [d|]] [w tr]]; unfold_m; crack.
  all: intros [=].
  all: do 2 eexists; split; [reflexivity |].
  all: split; [simpl; rewrite <- ?app_assoc; reflexivity |].
  all: unfold instructions; simpl; rewrite ?Hp; reflexivity.
Qed.

(** A direction outside the seven has no key code: nothing is sent. *)
Lemma navigate_outside_map (direction : string) (f : Frame W) :
  direction ∉ Api.valid_directions ->
  navigate T direction f = (Returned false, f).
Proof.
  intros H. unfold navigate. rewrite (keycode_map_outside _ H). reflexivity.
Qed.

End KeycodeFacts.

Lemma fixed_commands_send_their_keycode_witness :
  power steady {| self := connected_controller; world := fresh_world |}
  = (Returned true,
     {| self := connected_controller;
        world :=
          {| tstate := tt;
             trace := [EvShell 1%nat "echo test" true;
                       EvShell 1%nat "input keyevent 26" true] |} |}).
Proof.
  destruct (fixed_commands_send_their_keycode steady) as [[Hpower _] _].
  specialize (Hpower {| self := connected_controller; world := fresh_world |}).
  destruct Hpower as (d & Hd & Hrun).
  injection Hd as <-. exact Hrun.
Defined.

(** ** No exception leaves the controller *)

(** A call that raised something outside [Exception] contradicts the
    assumption on the transport. *)
Ltac refute_raise Hc Hs Hsh :=
  exfalso;
  repeat match goal with
  | H : adb_connect _ ?c ?h ?p ?w = (Raised (PyBaseException ?s), _) |- _ =>
      pose proof (Hc c h p w _ (f_equal fst H)); clear H
  | H : adb_get_serial_no _ ?d ?w = (Raised (PyBaseException ?s), _) |- _ =>
      pose proof (Hs d w _ (f_equal fst H)); clear H
  | H : adb_shell _ ?d ?c ?w = (Raised (PyBaseException ?s), _) |- _ =>
      pose proof (Hsh d c w _ (f_equal fst H)); clear H
  end;
  simpl in *; discriminate.

Section ExceptionFacts.
Context {W : Type} (T : Transport W).

Lemma dispatch_shell_returns_bool (cmd : string) :
  raises_only_Exception T -> returns_bool (dispatch_shell T cmd).
Proof.
  intros (Hc & Hs & Hsh) [[h p cl dev] [w tr]].
  destruct dev as [d|]; unfold_m; crack; eauto.
  all: refute_raise Hc Hs Hsh.
Qed.

Lemma connect_returns_bool :
  raises_only_Exception T -> returns_bool (connect T).
Proof.
  intros (Hc & Hs & Hsh) [[h p cl dev] [w tr]].
  unfold_m; crack; eauto.
  all: refute_raise Hc Hs Hsh.
Qed.

Lemma ensure_connected_returns_bool :
  raises_only_Exception T -> returns_bool (ensure_connected T).
Proof.
  intros (Hc & Hs & Hsh) [[h p cl dev] [w tr]].
  destruct dev as [d|]; unfold_m; crack; eauto.
  all: refute_raise Hc Hs Hsh.
Qed.

(** An instruction that raised makes the method return [False]: a failed
    shell call is the last call of a run only when it was the instruction. *)
Lemma raised_instruction_is_False (c : command) (f : Frame W) :
  raises_only_Exception T ->
  let '(r, f') := invoke T c f in
  forall delta d i,
    trace (world f') = trace (world f) ++ delta ->
    last delta = Some (EvShell d i false) ->
    r = Returned false.
Proof.
  intros (Hc & Hs & Hsh).
  destruct (instruction c) as [i|] eqn:Hi.
  - rewrite (invoke_instruction T _ _ Hi).
    destruct f as [[h p cl [d|]] [w tr]]; unfold_m; crack.
    all: try refute_raise Hc Hs Hsh.
    all: intros delta d' i' Heq Hlast; try reflexivity; exfalso.
    all: simpl in Heq; rewrite <- ?app_assoc in Heq.
    all: apply app_inv_head in Heq; subst delta.
    all: simpl in Hlast; discriminate.
  - rewrite (invoke_no_instruction T _ Hi). simpl. intros. reflexivity.
Qed.

Lemma raised_connect_is_False (f : Frame W) (e : pyexc) (w' : W) :
  raises_only_Exception T ->
  adb_connect T (client (self f)) (host (self f)) (port (self f))
    (tstate (world f)) = (Raised e, w') ->
  fst (connect T f) = Returned false.
Proof.
  intros (Hc & Hs & Hsh) H. destruct f as [[h p cl dev] [w tr]]. simpl in H.
  unfold_m. simpl. rewrite H. specialize (Hc _ _ _ _ _ (f_equal fst H)).
  simpl in Hc. rewrite Hc. reflexivity.
Qed.

(** C9, as amended.  Over a transport that raises instances of [Exception],
    every method of the controller returns a boolean, whatever the receiver,
    the world and the arguments; a [connect] whose client call raised
    returns [False], and so does a method whose instruction raised.  The
    restriction to [Exception] is needed: see
    [connect_lets_an_interrupt_through]. *)
Theorem controller_never_raises :
  raises_only_Exception T ->
  returns_bool (connect T) /\
  returns_bool (ensure_connected T) /\
  (forall keycode, returns_bool (send_keyevent T keycode)) /\
  returns_bool (power T) /\
  returns_bool (volume_up T) /\
  returns_bool (volume_down T) /\
  returns_bool (mute T) /\
  (forall direction, returns_bool (navigate T direction)) /\
  (forall package_name, returns_bool (launch_app T package_name)) /\
  (forall f e w',
     adb_connect T (client (self f)) (host (self f)) (port (self f))
       (tstate (world f)) = (Raised e, w') ->
     fst (connect T f) = Returned false) /\
  (forall c f,
     let '(r, f') := invoke T c f in
     forall delta d i,
       trace (world f') = trace (world f) ++ delta ->
       last delta = Some (EvShell d i false) ->
       r = Returned false).
Proof.
  intros H.
  pose proof (dispatch_shell_returns_bool) as Hd.
  do 9 (try split); try (intros; apply Hd; exact H).
  4: split; [ intros f e w'; apply raised_connect_is_False, H
            | intros c f; apply raised_instruction_is_False, H ].
  - apply connect_returns_bool, H.
  - apply ensure_connected_returns_bool, H.
  - intros direction. unfold navigate.
    destruct (keycode_map !! direction); [apply Hd, H |].
    intros f. exists false. reflexivity.
Qed.

End ExceptionFacts.

Lemma dead_raises_only_Exception : raises_only_Exception dead.
Proof.
  repeat split; intros; simpl in *.
  all: match goal with H : Raised _ = Raised _ |- _ => injection H as <- end.
  all: reflexivity.
Qed.

Lemma controller_never_raises_witness :
  returns_bool (connect dead) /\
  returns_bool (power dead) /\
  returns_bool (launch_app dead "com.netflix.ninja").
Proof.
  pose proof (controller_never_raises dead dead_raises_only_Exception) as H.
  repeat split; apply H.
Defined.

(** C9 as stated, for every behaviour of the transport, fails.  [connect]
    and the instruction write catch [Exception] only (lines 70, 91, 130): an
    interrupt raised while the client connects leaves [connect], and with it
    [ensure_connected], [power] and [launch_app]; one raised by the
    instruction's shell call leaves [power] and [launch_app] on a connected
    controller.  Only the bare [except:] around the probe takes it. *)
Remark connect_lets_an_interrupt_through :
  (let f := {| self := new_TVController "192.168.1.100" 5555;
               world := fresh_world |} in
   fst (connect interrupted f) = Raised (PyBaseException "KeyboardInterrupt") /\
   fst (ensure_connected interrupted f)
     = Raised (PyBaseException "KeyboardInterrupt") /\
   fst (power interrupted f) = Raised (PyBaseException "KeyboardInterrupt") /\
   fst (launch_app interrupted "com.netflix.ninja" f)
     = Raised (PyBaseException "KeyboardInterrupt")) /\
  (let f := {| self := connected_controller; world := fresh_world |} in
   fst (power interrupted_write f)
     = Raised (PyBaseException "KeyboardInterrupt") /\
   fst (launch_app interrupted_write "com.netflix.ninja" f)
     = Raised (PyBaseException "KeyboardInterrupt")).
Proof. repeat split. Qed.

(** * Facts about the cache and the routes *)

Section CacheFacts.
Context {W : Type} (T : Transport W).
Context (ANDROID_TV_IP : string) (ANDROID_TV_PORT : Z).

Local Abbreviation get_tv_controller :=
  (Api.get_tv_controller T ANDROID_TV_IP ANDROID_TV_PORT).
Local Abbreviation relay := (Api.relay T ANDROID_TV_IP ANDROID_TV_PORT).
Local Abbreviation handle := (handle T ANDROID_TV_IP ANDROID_TV_PORT).
Local Abbreviation serve := (serve T ANDROID_TV_IP ANDROID_TV_PORT).

Lemma on_object_cache {A} (l : nat) (m : M (Frame W) A) (st : App W) :
  tv_controller_cache (snd (on_object l m st)) = tv_controller_cache st.
Proof.
  unfold on_object. destruct (heap st !! l); [| reflexivity].
  destruct (m _). reflexivity.
Qed.

Lemma get_tv_controller_cached (u : User) (st : App W) (l : nat) :
  tv_controller_cache st !! user_id u = Some l ->
  get_tv_controller u st = (Returned (Some l), st).
Proof.
  intros H. unfold Api.get_tv_controller, bind, gets, getitem. simpl.
  rewrite H. reflexivity.
Qed.

Lemma get_tv_controller_new (u : User) (st : App W) :
  tv_controller_cache st !! user_id u = None ->
  let l := fresh (dom (heap st)) in
  let '(r, f) := connect T (first_frame ANDROID_TV_IP ANDROID_TV_PORT st) in
  let heap' :=
    <[l := self f]>
      (<[l := new_TVController ANDROID_TV_IP ANDROID_TV_PORT]> (heap st)) in
  get_tv_controller u st =
    match r with
    | Returned true =>
        (Returned (Some l),
         {| app_world := world f; heap := heap';
            tv_controller_cache := <[user_id u := l]> (tv_controller_cache st) |})
    | Returned false =>
        (Returned None,
         {| app_world := world f; heap := heap';
            tv_controller_cache := tv_controller_cache st |})
    | Raised e =>
        (Raised e,
         {| app_world := world f; heap := heap';
            tv_controller_cache := tv_controller_cache st |})
    end.
Proof.
  intros H. unfold Api.get_tv_controller, bind, gets, alloc, on_object,
    cache_setitem, modify, getitem, first_frame. simpl.
  rewrite H. simpl. rewrite lookup_insert_eq.
  destruct (connect T _) as [[[|]|e] f]; simpl; [| reflexivity | reflexivity].
  rewrite lookup_insert_eq. reflexivity.
Qed.

Lemma fresh_location_unused (st : App W) :
  heap st !! fresh (dom (heap st)) = None.
Proof. apply not_elem_of_dom, is_fresh. Qed.












End CacheFacts.


(** ** The routes *)

Section RouteFacts.
Context {W : Type} (T : Transport W).
Context (ANDROID_TV_IP : string) (ANDROID_TV_PORT : Z).

Local Abbreviation get_tv_controller :=
  (Api.get_tv_controller T ANDROID_TV_IP ANDROID_TV_PORT).

Lemma present_not_missing (data : gmap string string) (key v : string) :
  data !! key = Some v -> missing (Some data) key = false.
Proof.
  intros H. unfold missing.
  rewrite (bool_decide_eq_false_2 (data = ∅)),
    (bool_decide_eq_false_2 (data !! key = None)).
  - reflexivity.
  - congruence.
  - intros ->. rewrite lookup_empty in H. discriminate.
Qed.

(** C7.  A direction outside the seven is refused on both levels with the
    state as it was: [TVController.navigate] returns [False], and the route
    answers 400 before it asks for a controller.  The trace is part of the
    state, so nothing reached the transport: no connect, no probe, no
    instruction. *)
Theorem unknown_direction_is_refused (direction : string) :
  direction ∉ Api.valid_directions ->
  (forall f : Frame W, navigate T direction f = (Returned false, f)) /\
  (forall (u : User) (data : gmap string string) (st : App W),
     data !! "direction" = Some direction ->
     Api.navigate T ANDROID_TV_IP ANDROID_TV_PORT (Some u) (Some data) st =
       (Returned
          (Json 400 "error"
             "Invalid direction. Must be one of: up, down, left, right, ok, back, home"),
        st)).
Proof.
  intros Hout. split.
  - intros f. apply navigate_outside_map, Hout.
  - intros u data st Hdir. unfold Api.navigate, login_required.
    rewrite (present_not_missing _ _ _ Hdir).
    unfold bind, getitem. simpl. rewrite Hdir. simpl.
    rewrite bool_decide_eq_false_2 by exact Hout. reflexivity.
Qed.

(** [cache_wf] holds when the process starts and every request keeps it. *)
Lemma initial_app_wf (w : W) : cache_wf (initial_app w).
Proof. intros uid l H. simpl in H. rewrite lookup_empty in H. discriminate. Qed.

Lemma on_object_keeps_objects {A} (l : nat) (m : M (Frame W) A) (st : App W)
    (l' : nat) :
  is_Some (heap st !! l') -> is_Some (heap (snd (on_object l m st)) !! l').
Proof.
  intros H. unfold on_object. destruct (heap st !! l) eqn:Hl; [| exact H].
  destruct (m _) as [r f]. simpl.
  destruct (decide (l = l')) as [<- | Hne].
  - rewrite lookup_insert_eq. eauto.
  - rewrite lookup_insert_ne by exact Hne. exact H.
Qed.

Lemma on_object_wf {A} (l : nat) (m : M (Frame W) A) (st : App W) :
  cache_wf st -> cache_wf (snd (on_object l m st)).
Proof.
  intros Hwf uid l' H. rewrite on_object_cache in H.
  apply on_object_keeps_objects, (Hwf uid), H.
Qed.

Lemma get_tv_controller_wf (u : User) (st : App W) :
  cache_wf st -> cache_wf (snd (get_tv_controller u st)).
Proof.
  intros Hwf.
  destruct (tv_controller_cache st !! user_id u) as [l|] eqn:Hu.
  - rewrite (get_tv_controller_cached T _ _ _ _ _ Hu). exact Hwf.
  - pose proof (get_tv_controller_new T ANDROID_TV_IP ANDROID_TV_PORT u st Hu) as Hnew.
    simpl in Hnew.
    destruct (connect T (first_frame ANDROID_TV_IP ANDROID_TV_PORT st))
      as [[[|]|e] f]; rewrite Hnew.
    all: intros uid l H; simpl in *.
    all: destruct (decide (fresh (dom (heap st)) = l)) as [<- | Hne];
      [ rewrite lookup_insert_eq; eauto | rewrite !lookup_insert_ne by exact Hne ].
    2-3: exact (Hwf uid l H).
    destruct (decide (user_id u = uid)) as [<- | Hu'].
    + rewrite lookup_insert_eq in H. congruence.
    + rewrite lookup_insert_ne in H by exact Hu'. exact (Hwf uid l H).
Qed.

Lemma relay_wf (u : User) (m : M (Frame W) bool) (sent failed : string)
    (st : App W) :
  cache_wf st ->
  cache_wf (snd (Api.relay T ANDROID_TV_IP ANDROID_TV_PORT u m sent failed st)).
Proof.
  intros Hwf. unfold Api.relay, bind.
  pose proof (get_tv_controller_wf u st Hwf) as H1.
  destruct (get_tv_controller u st) as [[[c|]|e] st1]; simpl in *; try exact H1.
  pose proof (on_object_wf c m st1 H1) as H2.
  destruct (on_object c m st1) as [[[|]|e] st2]; exact H2.
Qed.

Lemma handle_wf (cu : option User) (req : request) (st : App W) :
  cache_wf st ->
  cache_wf (snd (handle T ANDROID_TV_IP ANDROID_TV_PORT cu req st)).
Proof.
  intros H.
  destruct req, cu as [u|]; simpl; try exact H; try (apply relay_wf; exact H).
  - unfold bind, getitem. destruct (missing data "package_name"); [exact H |].
    destruct (default ∅ data !! "package_name"); simpl; [| exact H].
    apply relay_wf, H.
  - unfold bind, getitem. destruct (missing data "direction"); [exact H |].
    destruct (default ∅ data !! "direction"); simpl; [| exact H].
    case_bool_decide; [apply relay_wf, H | exact H].
Qed.

Lemma serve_wf (reqs : list (option User * request)) :
  forall st : App W,
    cache_wf st -> cache_wf (serve T ANDROID_TV_IP ANDROID_TV_PORT reqs st).
Proof.
  induction reqs as [|[cu req] reqs IH]; intros st H; simpl.
  - exact H.
  - apply IH, handle_wf, H.
Qed.

Lemma dispatch_shell_unreachable (cmd : string) (f : Frame W) :
  unreachable T -> fst (dispatch_shell T cmd f) = Returned false.
Proof.
  intros [Hc Hp].
  assert (Hens : fst (ensure_connected T f) = Returned false).
  { unfold ensure_connected, bind, gets, try_except, call_shell, ret. simpl.
    destruct (device (self f)) as [d|]; [| apply Hc].
    destruct (Hp d (tstate (world f))) as [e He].
    destruct (adb_shell T d probe_cmd (tstate (world f))) as [r w'].
    simpl in He. subst r. simpl. apply Hc. }
  unfold dispatch_shell, bind.
  destruct (ensure_connected T f) as [r f1]. simpl in Hens. subst r.
  reflexivity.
Qed.

(** C5.  With the device unreachable, POST /api/tv/power by a logged-in user
    answers 500 with an error message: the connect failure for a user
    without an entry, the send failure for a user with one.  The cache is
    what it was, so a user without an entry still has none, and no entry of
    the user answers the probe. *)
Theorem power_while_unreachable (u : User) (st : App W) :
  cache_wf st ->
  unreachable T ->
  let '(r, st') := Api.power T ANDROID_TV_IP ANDROID_TV_PORT (Some u) st in
  r = Returned
        (Json 500 "error"
           match tv_controller_cache st !! user_id u with
           | None => "Failed to connect to Android TV"
           | Some _ => "Failed to send power command"
           end) /\
  tv_controller_cache st' = tv_controller_cache st /\
  ~ live_entry T st' (user_id u).
Proof.
  intros Hwf Hun.
  assert (Hdead : forall st', ~ live_entry T st' (user_id u)).
  { intros st' (l & o & d & out & w' & _ & _ & _ & Hp).
    destruct Hun as [_ Hpr]. destruct (Hpr d (tstate (app_world st'))) as [e He].
    rewrite Hp in He. discriminate. }
  unfold Api.power, login_required, Api.relay, bind.
  destruct (tv_controller_cache st !! user_id u) as [l|] eqn:Hu.
  - rewrite (get_tv_controller_cached T _ _ _ _ _ Hu).
    destruct (Hwf _ _ Hu) as [o Ho].
    unfold on_object. rewrite Ho.
    pose proof (dispatch_shell_unreachable (keyevent_cmd KEYCODE_POWER)
                  {| self := o; world := app_world st |} Hun) as Hf.
    change (dispatch_shell T (keyevent_cmd KEYCODE_POWER)) with (power T) in Hf.
    destruct (power T _) as [r f]. simpl in Hf. subst r. simpl. auto.
  - pose proof (get_tv_controller_new T ANDROID_TV_IP ANDROID_TV_PORT u st Hu) as Hnew.
    simpl in Hnew. destruct Hun as [Hc Hp].
    specialize (Hc (first_frame ANDROID_TV_IP ANDROID_TV_PORT st)).
    destruct (connect T (first_frame ANDROID_TV_IP ANDROID_TV_PORT st)) as [r f].
    simpl in Hc. subst r.
    rewrite Hnew. simpl. auto.
Qed.

End RouteFacts.

Section FirstDispatch.
Context {W : Type} (T : Transport W).
Context (ANDROID_TV_IP : string) (ANDROID_TV_PORT : Z).

Local Abbreviation relay := (Api.relay T ANDROID_TV_IP ANDROID_TV_PORT).

Lemma first_connect_succeeds (st : App W) (d : Device) (w3 : W) :
  connect_and_probe_succeed T ANDROID_TV_IP ANDROID_TV_PORT st d w3 ->
  exists w2 out,
    adb_shell T d probe_cmd w2 = (Returned out, w3) /\
    connect T (first_frame ANDROID_TV_IP ANDROID_TV_PORT st) =
      (Returned true,
       {| self :=
            {| host := ANDROID_TV_IP; port := ANDROID_TV_PORT;
               client := {| server_host := "127.0.0.1"; server_port := 5037 |};
               device := Some d |};
          world :=
            {| tstate := w2;
               trace := trace (app_world st)
                        ++ [EvConnect ANDROID_TV_IP ANDROID_TV_PORT; EvSerial d] |} |}).
Proof.
  intros (serial & out & w1 & w2 & Hc & Hs & Ht & Hp).
  exists w2, out. split; [exact Hp |].
  unfold first_frame, new_TVController. unfold_m. simpl.
  rewrite Hc. simpl. rewrite Hs. simpl. rewrite Ht. simpl.
  rewrite <- app_assoc. reflexivity.
Qed.

Lemma relay_first_dispatch (u : User) (st : App W) (i sent failed : string)
    (d : Device) (w3 : W) :
  tv_controller_cache st !! user_id u = None ->
  connect_and_probe_succeed T ANDROID_TV_IP ANDROID_TV_PORT st d w3 ->
  let '(_, st') := relay u (dispatch_shell T i) sent failed st in
  trace (app_world st') =
    trace (app_world st)
    ++ [EvConnect ANDROID_TV_IP ANDROID_TV_PORT; EvSerial d;
        EvShell d probe_cmd true;
        EvShell d i
          match fst (adb_shell T d i w3) with
          | Returned _ => true
          | Raised _ => false
          end].
Proof.
  intros Hu Hok.
  destruct (first_connect_succeeds st d w3 Hok) as (w2 & out & Hp & Hc).
  pose proof (get_tv_controller_new T ANDROID_TV_IP ANDROID_TV_PORT u st Hu) as Hnew.
  simpl in Hnew. rewrite Hc in Hnew.
  unfold Api.relay, bind. rewrite Hnew.
  unfold on_object. simpl. rewrite lookup_insert_eq.
  unfold_m. simpl. rewrite Hp. simpl.
  destruct (adb_shell T d i w3) as [[o|[m|m]] w4]; simpl.
  all: rewrite <- !app_assoc; reflexivity.
Qed.

(** C6.  A request that carries a command, from a user without an entry,
    when the first connect and the probe after it succeed: the transport sees
    one connect to the configured host and port, the serial-number check,
    the probe, and then the command's instruction, in that order and nothing
    else. *)
Theorem first_dispatch_connects_once (req : request) (c : command) (u : User)
    (st : App W) (d : Device) (w3 : W) :
  carries req c ->
  tv_controller_cache st !! user_id u = None ->
  connect_and_probe_succeed T ANDROID_TV_IP ANDROID_TV_PORT st d w3 ->
  let '(_, st') := handle T ANDROID_TV_IP ANDROID_TV_PORT (Some u) req st in
  exists i,
    instruction c = Some i /\
    trace (app_world st') =
      trace (app_world st)
      ++ [EvConnect ANDROID_TV_IP ANDROID_TV_PORT; EvSerial d;
          EvShell d probe_cmd true;
          EvShell d i
            match fst (adb_shell T d i w3) with
            | Returned _ => true
            | Raised _ => false
            end].
Proof.
  intros Hreq Hu Hok.
  assert (Hrelay : forall i m sent failed,
            m = dispatch_shell T i ->
            instruction c = Some i ->
            let '(_, st') := relay u m sent failed st in
            exists i,
              instruction c = Some i /\
              trace (app_world st') =
                trace (app_world st)
                ++ [EvConnect ANDROID_TV_IP ANDROID_TV_PORT; EvSerial d;
                    EvShell d probe_cmd true;
                    EvShell d i
                      match fst (adb_shell T d i w3) with
                      | Returned _ => true
                      | Raised _ => false
                      end]).
  { intros i m sent failed -> Hi.
    pose proof (relay_first_dispatch u st i sent failed d w3 Hu Hok) as H.
    destruct (relay u (dispatch_shell T i) sent failed st) as [r st'].
    exists i. auto. }
  destruct Hreq as [ | | | | data package_name Hpk | data direction Hdir Hin ];
    unfold handle, Api.power, Api.volume_up, Api.volume_down,
      Api.volume_mute, Api.launch_app, Api.navigate, login_required.
  1-4: eapply Hrelay; reflexivity.
  - unfold bind at 1, getitem. rewrite (present_not_missing _ _ _ Hpk). simpl.
    rewrite Hpk. simpl. eapply Hrelay; reflexivity.
  - unfold bind at 1, getitem. rewrite (present_not_missing _ _ _ Hdir). simpl.
    rewrite Hdir. simpl. rewrite bool_decide_eq_true_2 by exact Hin.
    destruct (keycode_map_inside _ Hin) as [keycode Hk].
    eapply Hrelay.
    + unfold navigate. rewrite Hk. reflexivity.
    + simpl. rewrite Hk. reflexivity.
Qed.

End FirstDispatch.

(** ** The routes on concrete runs *)

Lemma sideways_is_unknown : "sideways" ∉ Api.valid_directions.
Proof.
  unfold Api.valid_directions. rewrite !not_elem_of_cons.
  repeat split; [discriminate .. | apply not_elem_of_nil].
Qed.

Lemma unknown_direction_is_refused_witness :
  navigate steady "sideways"
    {| self := connected_controller; world := fresh_world |}
  = (Returned false, {| self := connected_controller; world := fresh_world |}) /\
  Api.navigate steady "192.168.1.100" 5555 (Some alice)
    (Some {[ "direction" := "sideways" ]}) (initial_app tt)
  = (Returned
       (Json 400 "error"
          "Invalid direction. Must be one of: up, down, left, right, ok, back, home"),
     initial_app tt).
Proof.
  destruct (unknown_direction_is_refused steady "192.168.1.100" 5555
              "sideways" sideways_is_unknown) as [Hmethod Hroute].
  split; [apply Hmethod | apply Hroute; reflexivity].
Defined.

Lemma dead_is_unreachable : unreachable dead.
Proof.
  split.
  - intros [[h p cl dev] [w tr]]. reflexivity.
  - intros d w. eexists. reflexivity.
Qed.

Lemma stale_app_wf : cache_wf stale_app.
Proof.
  intros uid l H. simpl in H.
  apply lookup_singleton_Some in H as [_ <-]. simpl.
  rewrite lookup_singleton_eq. eauto.
Qed.

Lemma power_while_unreachable_witness :
  let '(r, st') := Api.power dead "192.168.1.100" 5555 (Some alice) stale_app in
  r = Returned (Json 500 "error" "Failed to send power command") /\
  tv_controller_cache st' = tv_controller_cache stale_app /\
  ~ live_entry dead st' "1001".
Proof.
  exact (power_while_unreachable dead "192.168.1.100" 5555 alice stale_app
           stale_app_wf dead_is_unreachable).
Defined.

Lemma steady_connects_and_answers :
  connect_and_probe_succeed steady "192.168.1.100" 5555 (initial_app tt) 1%nat tt.
Proof.
  exists (Some "192.168.1.100:5555"), "", tt, tt. repeat split.
Qed.

Lemma first_dispatch_connects_once_witness :
  let '(_, st') := handle steady "192.168.1.100" 5555 (Some alice) PostPower
                     (initial_app tt) in
  exists i,
    instruction Power = Some i /\
    trace (app_world st') =
      [EvConnect "192.168.1.100" 5555; EvSerial 1%nat;
       EvShell 1%nat probe_cmd true; EvShell 1%nat i true].
Proof.
  exact (first_dispatch_connects_once steady "192.168.1.100" 5555 PostPower
           Power alice (initial_app tt) 1%nat tt carries_power eq_refl
           steady_connects_and_answers).
Defined.

(** * Facts about the callback *)

Section CallbackFacts.
Context (ALLOWED_EMAILS : list string).

(** C4.  A token with user information whose email is not in a non-empty
    allow-list: the callback answers 403 and leaves the session as it was,
    nothing stored in it and nobody logged in. *)
Theorem unlisted_email_is_refused (token : Auth.Token)
    (user_info : gmap string string) (email : string) (s : Auth.FlaskSession) :
  ALLOWED_EMAILS <> [] ->
  Auth.userinfo token = Some user_info ->
  user_info !! "email" = Some email ->
  email ∉ ALLOWED_EMAILS ->
  Auth.callback ALLOWED_EMAILS (Returned token) s
  = (Returned (Json 403 "error" "Unauthorized email address"), s).
Proof.
  intros Hne Hui Hemail Hout.
  unfold Auth.callback, bind. simpl. rewrite Hui. simpl.
  rewrite bool_decide_eq_false_2.
  2: { intros ->. rewrite lookup_empty in Hemail. discriminate. }
  unfold Auth.email_refused.
  destruct ALLOWED_EMAILS as [|a rest]; [congruence |].
  unfold bind, getitem. rewrite Hemail. simpl.
  rewrite bool_decide_eq_false_2 by exact Hout. reflexivity.
Qed.

End CallbackFacts.

Lemma unlisted_email_is_refused_witness :
  Auth.callback ["bob@example.com"] (Returned alice_token) no_session
  = (Returned (Json 403 "error" "Unauthorized email address"), no_session).
Proof.
  apply (unlisted_email_is_refused ["bob@example.com"] alice_token
           (list_to_map [("sub", "1001"); ("email", "alice@example.com");
                         ("name", "Alice")])
           "alice@example.com" no_session).
  - discriminate.
  - reflexivity.
  - reflexivity.
  - rewrite not_elem_of_cons. split; [discriminate | apply not_elem_of_nil].
Defined.

(** [split] never returns the empty list, so the list of line 37 is never
    empty, whatever the environment. *)
Lemma split_not_empty (s : string) (sep : ascii) : split s sep <> [].
Proof.
  destruct s as [|c rest]; simpl; [discriminate |].
  destruct (Ascii.eqb c sep); [discriminate |].
  destruct (split rest sep); discriminate.
Qed.

Lemma Config_ALLOWED_EMAILS_not_empty (environ : gmap string string) :
  Config_ALLOWED_EMAILS environ <> [].
Proof. apply split_not_empty. Qed.

(** With the variable unset or empty the list holds one string, the empty
    one. *)
Lemma Config_ALLOWED_EMAILS_unset :
  Config_ALLOWED_EMAILS ∅ = [""] /\
  Config_ALLOWED_EMAILS {[ "ALLOWED_EMAILS" := "" ]} = [""].
Proof. split; reflexivity. Qed.

(** The guard of the callback lets everybody in on an empty list. *)
Lemma empty_list_admits (user_info : gmap string string) (s : Auth.FlaskSession) :
  Auth.email_refused [] user_info s = (Returned false, s).
Proof. reflexivity. Qed.

(** Under the list of an unset variable every identity with an email is
    refused, the empty email apart. *)
Lemma unset_allow_list_refuses_everyone (token : Auth.Token)
    (user_info : gmap string string) (email : string) (s : Auth.FlaskSession) :
  Auth.userinfo token = Some user_info ->
  user_info !! "email" = Some email ->
  email <> "" ->
  Auth.callback (Config_ALLOWED_EMAILS ∅) (Returned token) s
  = (Returned (Json 403 "error" "Unauthorized email address"), s).
Proof.
  intros Hui Hemail Hne.
  unfold Auth.callback, bind. simpl. rewrite Hui. simpl.
  rewrite bool_decide_eq_false_2.
  2: { intros ->. rewrite lookup_empty in Hemail. discriminate. }
  change (Config_ALLOWED_EMAILS ∅) with [""].
  unfold Auth.email_refused, bind, getitem. rewrite Hemail. simpl.
  rewrite bool_decide_eq_false_2; [reflexivity |].
  rewrite not_elem_of_cons. split; [exact Hne | apply not_elem_of_nil].
Qed.

(** C3 fails on the code.  With ALLOWED_EMAILS unset, or set to the empty
    string, Alice is refused with 403 and no session is made: the list the
    guard tests is [['']], not the empty list. *)
Theorem unset_allow_list_refuses :
  Auth.callback (Config_ALLOWED_EMAILS ∅) (Returned alice_token) no_session
  = (Returned (Json 403 "error" "Unauthorized email address"), no_session) /\
  Auth.callback (Config_ALLOWED_EMAILS {[ "ALLOWED_EMAILS" := "" ]})
    (Returned alice_token) no_session
  = (Returned (Json 403 "error" "Unauthorized email address"), no_session).
Proof. split; vm_compute; reflexivity. Qed.

(** The same token under a list that is empty goes through: the session
    holds the user information and Alice is logged in. *)
Remark empty_list_admits_alice :
  Auth.callback [] (Returned alice_token) no_session
  = (Returned (Redirect "/"),
     {| Auth.session_user_info := Auth.userinfo alice_token;
        Auth.logged_in := Some alice |}).
Proof. vm_compute. reflexivity. Qed.

(** * Further facts about the controller *)

Section ControllerEffects.
Context {W : Type} (T : Transport W).

(** [connect] asks the client once, asks the device for its serial number at
    most once, sends nothing to the shell and leaves host, port and client
    alone.  On [True] the controller holds the device whose serial number it
    just read; on anything else the [device] field is what it was, a stale
    handle included. *)
Theorem connect_effect (f : Frame W) :
  let '(r, f') := connect T f in
  host (self f') = host (self f) /\
  port (self f') = port (self f) /\
  client (self f') = client (self f) /\
  exists delta,
    trace (world f') = trace (world f) ++ delta /\
    connect_attempts delta = [EvConnect (host (self f)) (port (self f))] /\
    transport_writes delta = 0%nat /\
    (length delta <= 2)%nat /\
    (r = Returned true ->
       exists d, device (self f') = Some d /\ last delta = Some (EvSerial d)) /\
    (r <> Returned true -> device (self f') = device (self f)).
Proof.
  destruct f as [[h p cl dev] [w tr]]; unfold_m; crack.
  all: repeat (split; [reflexivity |]).
  all: split_trace.
  all: unfold connect_attempts, transport_writes; simpl.
  all: repeat (split; [first [reflexivity | lia] |]).
  all: split; [intros [=]; eauto | intros Hne; first [congruence | reflexivity]].
Qed.

(** A [True] from [ensure_connected] means the controller holds a device, so
    the [self.device.shell] that follows in [send_keyevent] and [launch_app]
    never fails on [None]. *)
Theorem ensure_connected_gives_device (f : Frame W) :
  let '(r, f') := ensure_connected T f in
  r = Returned true -> exists d, device (self f') = Some d.
Proof.
  destruct f as [[h p cl [d|]] [w tr]]; unfold_m; crack.
  all: intros [=]; eauto.
Qed.

(** On a controller whose device answers the probe, [ensure_connected]
    returns [True] after that one shell call, with no connect and the
    controller as it was. *)
Theorem ensure_connected_live (f : Frame W) (d : Device) (out : string) (w' : W) :
  device (self f) = Some d ->
  adb_shell T d probe_cmd (tstate (world f)) = (Returned out, w') ->
  ensure_connected T f =
    (Returned true,
     {| self := self f;
        world := {| tstate := w';
                    trace := trace (world f) ++ [EvShell d probe_cmd true] |} |}).
Proof.
  intros Hd Hp. destruct f as [[h p cl dev] [w tr]]. simpl in *. subst dev.
  unfold_m. simpl. rewrite Hp. reflexivity.
Qed.

(** No method changes host, port or client, and none clears a device handle:
    a controller that holds a device holds one after any call, whatever the
    transport did. *)
Theorem methods_keep_the_endpoint (c : command) (f : Frame W) :
  let '(_, f') := invoke T c f in
  host (self f') = host (self f) /\
  port (self f') = port (self f) /\
  client (self f') = client (self f) /\
  (forall d, device (self f) = Some d -> exists d', device (self f') = Some d').
Proof.
  destruct (instruction c) as [i|] eqn:Hi.
  - rewrite (invoke_instruction T _ _ Hi).
    destruct f as [[h p cl [d|]] [w tr]]; unfold_m; crack.
    all: repeat (split; [reflexivity |]).
    all: intros ? [=]; eauto.
  - rewrite (invoke_no_instruction T _ Hi). simpl. eauto.
Qed.

(** One call of a method costs the transport at most one connect, one serial
    number and two shell calls; there is no second retry.  A connect happens
    only when the controller had no device or its probe raised. *)
Theorem method_transport_budget (c : command) (f : Frame W) :
  let '(_, f') := invoke T c f in
  exists delta,
    trace (world f') = trace (world f) ++ delta /\
    (length (connect_attempts delta) <= 1)%nat /\
    (transport_writes delta <= 2)%nat /\
    (length delta <= 4)%nat /\
    (forall d, head delta = Some (EvShell d probe_cmd true) ->
       connect_attempts delta = []).
Proof.
  destruct (instruction c) as [i|] eqn:Hi.
  - rewrite (invoke_instruction T _ _ Hi).
    destruct f as [[h p cl [d|]] [w tr]]; unfold_m; crack.
    all: split_trace.
    all: unfold connect_attempts, transport_writes; simpl.
    all: repeat (split; [lia |]).
    all: intros ? [=]; reflexivity.
  - rewrite (invoke_no_instruction T _ Hi). simpl.
    exists []. rewrite app_nil_r. simpl.
    unfold transport_writes. simpl. repeat split; try lia.
Qed.

End ControllerEffects.

Lemma ensure_connected_live_witness :
  ensure_connected steady {| self := connected_controller; world := fresh_world |}
  = (Returned true,
     {| self := connected_controller;
        world := {| tstate := tt; trace := [EvShell 1%nat probe_cmd true] |} |}).
Proof.
  exact (ensure_connected_live steady
           {| self := connected_controller; world := fresh_world |}
           1%nat "" tt eq_refl eq_refl).
Defined.

(** * Further facts about the routes *)

Section RouteGuards.
Context {W : Type} (T : Transport W).
Context (ANDROID_TV_IP : string) (ANDROID_TV_PORT : Z).

(** Without a logged-in user each of the six routes answers 401 and leaves
    the state as it was: no controller is made, nothing is cached, nothing
    reaches the transport, whatever the body. *)
Theorem anonymous_request_is_refused (req : request) (st : App W) :
  handle T ANDROID_TV_IP ANDROID_TV_PORT None req st
  = (Returned (Json 401 "error" "Authentication required"), st).
Proof. destruct req; reflexivity. Qed.

(** When [request.get_json()] gave [None] (the body [null]), or an object of
    strings that is empty or has no member of the name the route reads, the
    route answers 400 before a controller is asked for; the state is
    untouched.  Bodies outside [json_body] are not covered. *)
Theorem missing_field_is_refused (u : User) (data : json_body) (st : App W) :
  (data ≫= (fun d => d !! "package_name") = None ->
   Api.launch_app T ANDROID_TV_IP ANDROID_TV_PORT (Some u) data st
   = (Returned (Json 400 "error" "Missing package_name parameter"), st)) /\
  (data ≫= (fun d => d !! "direction") = None ->
   Api.navigate T ANDROID_TV_IP ANDROID_TV_PORT (Some u) data st
   = (Returned (Json 400 "error" "Missing direction parameter"), st)).
Proof.
  assert (Hm : forall key, data ≫= (fun d => d !! key) = None ->
                           missing data key = true).
  { intros key H. destruct data as [d|]; [| reflexivity]. simpl in *.
    rewrite (bool_decide_eq_true_2 _ H). apply orb_true_r. }
  split; intros H; unfold Api.launch_app, Api.navigate, login_required;
    rewrite (Hm _ H); reflexivity.
Qed.

End RouteGuards.

(** ** What every reachable cache looks like *)

Section CacheInvariant.
Context {W : Type} (T : Transport W).
Context (ANDROID_TV_IP : string) (ANDROID_TV_PORT : Z).

Local Abbreviation connected := (cache_connected ANDROID_TV_IP ANDROID_TV_PORT).
Local Abbreviation get_tv_controller :=
  (Api.get_tv_controller T ANDROID_TV_IP ANDROID_TV_PORT).

Lemma invoke_stays_connected (c : command) : stays_connected (invoke T c).
Proof.
  intros h p cl d [w tr].
  destruct (instruction c) as [i|] eqn:Hi.
  - rewrite (invoke_instruction T _ _ Hi). unfold_m; crack; eauto.
  - rewrite (invoke_no_instruction T _ Hi). simpl. eauto.
Qed.

Lemma first_connect_object (st : App W) :
  let '(r, f) := connect T (first_frame ANDROID_TV_IP ANDROID_TV_PORT st) in
  r = Returned true ->
  exists d,
    self f = {| host := ANDROID_TV_IP; port := ANDROID_TV_PORT;
                client := {| server_host := "127.0.0.1"; server_port := 5037 |};
                device := Some d |}.
Proof.
  unfold first_frame, new_TVController. destruct st as [[w tr] hp ca].
  unfold_m; crack; intros [=]; eauto.
Qed.

Lemma on_object_connected (l : nat) (m : M (Frame W) bool) (st : App W) :
  stays_connected m ->
  connected st -> connected (snd (on_object l m st)).
Proof.
  intros Hm Hinv uid l' H. rewrite on_object_cache in H.
  destruct (Hinv uid l' H) as [d Hd].
  unfold on_object. destruct (heap st !! l) as [o|] eqn:Hl; [| eauto].
  destruct (m _) as [r f] eqn:Hrun. simpl.
  destruct (decide (l = l')) as [<- | Hne].
  - rewrite lookup_insert_eq. rewrite Hd in Hl. injection Hl as <-.
    destruct (Hm ANDROID_TV_IP ANDROID_TV_PORT
                {| server_host := "127.0.0.1"; server_port := 5037 |}
                d (app_world st)) as [d' Hd'].
    rewrite Hrun in Hd'. simpl in Hd'. rewrite Hd'. eauto.
  - rewrite lookup_insert_ne by exact Hne. eauto.
Qed.

Lemma connected_not_fresh (st : App W) (uid : string) (l : nat) :
  connected st ->
  tv_controller_cache st !! uid = Some l ->
  fresh (dom (heap st)) <> l.
Proof.
  intros Hinv H Heq. destruct (Hinv uid l H) as [d Hd].
  rewrite <- Heq, fresh_location_unused in Hd. discriminate.
Qed.

Lemma get_tv_controller_invariant (u : User) (st : App W) :
  connected st /\ cache_injective st ->
  connected (snd (get_tv_controller u st)) /\
  cache_injective (snd (get_tv_controller u st)).
Proof.
  intros [Hinv Hinj].
  destruct (tv_controller_cache st !! user_id u) as [l|] eqn:Hu.
  - rewrite (get_tv_controller_cached T _ _ _ _ _ Hu). auto.
  - pose proof (get_tv_controller_new T ANDROID_TV_IP ANDROID_TV_PORT u st Hu)
      as Hnew.
    pose proof (first_connect_object st) as Hobj. simpl in Hnew.
    destruct (connect T (first_frame ANDROID_TV_IP ANDROID_TV_PORT st))
      as [[[|]|e] f]; rewrite Hnew; simpl.
    2-3: split; [| exact Hinj]; intros uid l H; simpl in *;
         rewrite !lookup_insert_ne by (eapply connected_not_fresh; eauto);
         exact (Hinv uid l H).
    destruct (Hobj eq_refl) as [d Hd]. split.
    + intros uid l H. simpl in *.
      destruct (decide (user_id u = uid)) as [<- | Hne].
      * rewrite lookup_insert_eq in H. injection H as <-.
        rewrite lookup_insert_eq, Hd. eauto.
      * rewrite lookup_insert_ne in H by exact Hne.
        rewrite !lookup_insert_ne by (eapply connected_not_fresh; eauto).
        exact (Hinv uid l H).
    + intros uid1 uid2 l H1 H2. simpl in *.
      destruct (decide (user_id u = uid1)) as [<- | Hne1];
        destruct (decide (user_id u = uid2)) as [<- | Hne2];
        try reflexivity.
      * rewrite lookup_insert_eq in H1. injection H1 as <-.
        rewrite lookup_insert_ne in H2 by exact Hne2.
        exfalso. eapply connected_not_fresh; eauto.
      * rewrite lookup_insert_eq in H2. injection H2 as <-.
        rewrite lookup_insert_ne in H1 by exact Hne1.
        exfalso. eapply connected_not_fresh; eauto.
      * rewrite lookup_insert_ne in H1 by exact Hne1.
        rewrite lookup_insert_ne in H2 by exact Hne2.
        exact (Hinj _ _ _ H1 H2).
Qed.

Lemma relay_invariant (u : User) (m : M (Frame W) bool) (sent failed : string)
    (st : App W) :
  stays_connected m ->
  connected st /\ cache_injective st ->
  connected (snd (Api.relay T ANDROID_TV_IP ANDROID_TV_PORT u m sent failed st)) /\
  cache_injective
    (snd (Api.relay T ANDROID_TV_IP ANDROID_TV_PORT u m sent failed st)).
Proof.
  intros Hm Hinv. unfold Api.relay, bind.
  pose proof (get_tv_controller_invariant u st Hinv) as [H1 H2].
  destruct (get_tv_controller u st) as [[[c|]|e] st1]; simpl in *; auto.
  pose proof (on_object_connected c m st1 Hm H1) as H3.
  pose proof (on_object_cache c m st1) as H4.
  destruct (on_object c m st1) as [[[|]|e] st2]; simpl in *.
  all: split; [exact H3 |].
  all: intros uid1 uid2 l; rewrite H4; apply H2.
Qed.

Lemma handle_invariant (cu : option User) (req : request) (st : App W) :
  connected st /\ cache_injective st ->
  connected (snd (handle T ANDROID_TV_IP ANDROID_TV_PORT cu req st)) /\
  cache_injective (snd (handle T ANDROID_TV_IP ANDROID_TV_PORT cu req st)).
Proof.
  intros H.
  destruct req, cu as [u|]; simpl; try exact H.
  - apply relay_invariant; [apply (invoke_stays_connected Power) | exact H].
  - apply relay_invariant; [apply (invoke_stays_connected VolumeUp) | exact H].
  - apply relay_invariant; [apply (invoke_stays_connected VolumeDown) | exact H].
  - apply relay_invariant; [apply (invoke_stays_connected Mute) | exact H].
  - unfold bind, getitem. destruct (missing data "package_name"); [exact H |].
    destruct (default ∅ data !! "package_name") as [pk|]; simpl; [| exact H].
    apply relay_invariant; [apply (invoke_stays_connected (LaunchApp pk)) | exact H].
  - unfold bind, getitem. destruct (missing data "direction"); [exact H |].
    destruct (default ∅ data !! "direction") as [dir|]; simpl; [| exact H].
    case_bool_decide; [| exact H].
    apply relay_invariant; [apply (invoke_stays_connected (Navigate dir)) | exact H].
Qed.

(** Whatever requests were served since startup, by whatever users and with
    whatever transport behaviour, every cached controller holds a device
    handle and points at the configured host and port, and no two users
    share a controller object. *)
Theorem reachable_cache_is_connected
    (reqs : list (option User * request)) (w : W) :
  let st := serve T ANDROID_TV_IP ANDROID_TV_PORT reqs (initial_app w) in
  connected st /\ cache_injective st.
Proof.
  simpl.
  assert (Hgen : forall st : App W,
            connected st /\ cache_injective st ->
            connected (serve T ANDROID_TV_IP ANDROID_TV_PORT reqs st) /\
            cache_injective (serve T ANDROID_TV_IP ANDROID_TV_PORT reqs st)).
  { induction reqs as [|[cu req] reqs IH]; intros st H; simpl.
    - exact H.
    - apply IH, handle_invariant, H. }
  apply Hgen. split.
  - intros uid l H. simpl in H. rewrite lookup_empty in H. discriminate.
  - intros uid1 uid2 l H. simpl in H. rewrite lookup_empty in H. discriminate.
Qed.

End CacheInvariant.

(** ** What a route answers and what it costs *)

Lemma transport_writes_app (a b : list event) :
  transport_writes (a ++ b) = (transport_writes a + transport_writes b)%nat.
Proof. unfold transport_writes. rewrite List.filter_app, length_app. reflexivity. Qed.

Section RouteOutcome.
Context {W : Type} (T : Transport W).
Context (ANDROID_TV_IP : string) (ANDROID_TV_PORT : Z).

Local Abbreviation connected := (cache_connected ANDROID_TV_IP ANDROID_TV_PORT).
Local Abbreviation relay := (Api.relay T ANDROID_TV_IP ANDROID_TV_PORT).

Lemma dispatch_outcome (i : string) (f : Frame W) (d0 : Device) :
  String.eqb i probe_cmd = false ->
  device (self f) = Some d0 ->
  let '(r, f') := dispatch_shell T i f in
  exists delta,
    trace (world f') = trace (world f) ++ delta /\
    (length (connect_attempts delta) <= 1)%nat /\
    (transport_writes delta <= 2)%nat /\
    outcome_summary i r delta.
Proof.
  intros Hp Hd. destruct f as [[h p cl dev] [w tr]]. simpl in Hd. subst dev.
  unfold_m; crack.
  all: split_trace.
  all: unfold outcome_summary, instructions, connect_attempts, transport_writes;
    simpl; rewrite ?Hp; simpl.
  all: repeat (split; [first [lia | reflexivity] |]); eauto.
Qed.

Lemma connect_outcome (f : Frame W) :
  let '(r, f') := connect T f in
  exists delta,
    trace (world f') = trace (world f) ++ delta /\
    length (connect_attempts delta) = 1%nat /\
    transport_writes delta = 0%nat /\
    instructions delta = [] /\
    match r with
    | Returned true => exists d, device (self f') = Some d
    | Returned false => True
    | Raised e => is_Exception e = false
    end.
Proof.
  destruct f as [[h p cl dev] [w tr]]. unfold_m; crack.
  all: split_trace.
  all: unfold instructions, connect_attempts, transport_writes; simpl.
  all: repeat (split; [reflexivity |]); eauto.
Qed.

Lemma relay_outcome (u : User) (i sent failed : string) (st : App W) :
  String.eqb i probe_cmd = false ->
  connected st ->
  let '(r, st') := relay u (dispatch_shell T i) sent failed st in
  exists delta,
    trace (app_world st') = trace (app_world st) ++ delta /\
    (length (connect_attempts delta) <= 2)%nat /\
    (transport_writes delta <= 2)%nat /\
    match r with
    | Returned resp =>
        (resp = Json 200 "success" sent /\
         transport_writes delta = 2%nat /\
         exists d, instructions delta = [EvShell d i true]) \/
        (exists message,
           resp = Json 500 "error" message /\
           List.filter completed (instructions delta) = [])
    | Raised e =>
        is_Exception e = false /\ List.filter completed (instructions delta) = []
    end.
Proof.
  intros Hp Hinv. unfold Api.relay, bind.
  destruct (tv_controller_cache st !! user_id u) as [l|] eqn:Hu.
  - rewrite (get_tv_controller_cached T _ _ _ _ _ Hu).
    destruct (Hinv _ _ Hu) as [d Hd]. unfold on_object. rewrite Hd.
    pose proof (dispatch_outcome i
                  {| self := {| host := ANDROID_TV_IP; port := ANDROID_TV_PORT;
                                client := {| server_host := "127.0.0.1";
                                             server_port := 5037 |};
                                device := Some d |};
                     world := app_world st |} d Hp eq_refl) as Hrun.
    destruct (dispatch_shell T i _) as [[[|]|e] f'];
      destruct Hrun as (delta & Ht & Hc & Hw & Hsum); simpl in *.
    all: exists delta; split; [exact Ht |]; split; [lia |]; split; [lia |].
    + left. destruct Hsum as [H2 Hi]. auto.
    + right. eauto.
    + exact Hsum.
  - pose proof (get_tv_controller_new T ANDROID_TV_IP ANDROID_TV_PORT u st Hu)
      as Hnew.
    pose proof (connect_outcome (first_frame ANDROID_TV_IP ANDROID_TV_PORT st))
      as Hconn.
    simpl in Hnew.
    destruct (connect T (first_frame ANDROID_TV_IP ANDROID_TV_PORT st))
      as [[[|]|e] [o1 w1]];
      destruct Hconn as (delta1 & Ht1 & Hc1 & Hw1 & Hi1 & Hr1);
      rewrite Hnew; simpl in *.
    + destruct Hr1 as [d Hd]. unfold on_object. simpl.
      rewrite lookup_insert_eq.
      pose proof (dispatch_outcome i {| self := o1; world := w1 |} d Hp Hd)
        as Hrun.
      destruct (dispatch_shell T i _) as [[[|]|e] f'];
        destruct Hrun as (delta2 & Ht2 & Hc2 & Hw2 & Hsum); simpl in *.
      all: exists (delta1 ++ delta2).
      all: split; [rewrite Ht2, Ht1, app_assoc; reflexivity |].
      all: unfold connect_attempts, instructions in *.
      all: rewrite transport_writes_app, !List.filter_app, length_app, Hi1, Hw1.
      all: split; [lia |]; split; [lia |]; simpl.
      * left. destruct Hsum as [H2 Hi]. auto.
      * right. eauto.
      * exact Hsum.
    + exists delta1. split; [exact Ht1 |]. split; [lia |]. split; [lia |].
      right. exists "Failed to connect to Android TV".
      unfold instructions in Hi1. unfold instructions. rewrite Hi1. auto.
    + exists delta1. split; [exact Ht1 |]. split; [lia |]. split; [lia |].
      unfold instructions in Hi1. unfold instructions. rewrite Hi1. auto.
Qed.

(** A request that carries a command, on a cache whose controllers are
    connected: the answer is 200 exactly when the command's instruction was
    written and completed, after one probe, two shell calls in all; the
    other answer is 500, with no instruction completed.  The request costs
    the transport at most two connects and two shell calls.  Only an
    exception outside [Exception] leaves the route. *)
Theorem route_outcome (req : request) (c : command) (u : User) (st : App W) :
  carries req c ->
  connected st ->
  let '(r, st') := handle T ANDROID_TV_IP ANDROID_TV_PORT (Some u) req st in
  exists delta,
    trace (app_world st') = trace (app_world st) ++ delta /\
    (length (connect_attempts delta) <= 2)%nat /\
    (transport_writes delta <= 2)%nat /\
    match r with
    | Returned resp =>
        (exists message d i,
           resp = Json 200 "success" message /\
           transport_writes delta = 2%nat /\
           instruction c = Some i /\
           instructions delta = [EvShell d i true]) \/
        (exists message,
           resp = Json 500 "error" message /\
           List.filter completed (instructions delta) = [])
    | Raised e =>
        is_Exception e = false /\ List.filter completed (instructions delta) = []
    end.
Proof.
  intros Hreq Hinv.
  assert (Hrelay : forall i m sent failed,
            m = dispatch_shell T i ->
            instruction c = Some i ->
            let '(r, st') := relay u m sent failed st in
            exists delta,
              trace (app_world st') = trace (app_world st) ++ delta /\
              (length (connect_attempts delta) <= 2)%nat /\
              (transport_writes delta <= 2)%nat /\
              match r with
              | Returned resp =>
                  (exists message d i,
                     resp = Json 200 "success" message /\
                     transport_writes delta = 2%nat /\
                     instruction c = Some i /\
                     instructions delta = [EvShell d i true]) \/
                  (exists message,
                     resp = Json 500 "error" message /\
                     List.filter completed (instructions delta) = [])
              | Raised e =>
                  is_Exception e = false /\
                  List.filter completed (instructions delta) = []
              end).
  { intros i m sent failed -> Hi.
    pose proof (relay_outcome u i sent failed st
                  (instruction_not_probe _ _ Hi) Hinv) as H.
    destruct (relay u (dispatch_shell T i) sent failed st) as [[resp|e] st'];
      destruct H as (delta & Ht & Hc & Hw & Hr);
      exists delta; repeat (split; [assumption |]); [| exact Hr].
    destruct Hr as [(-> & H2 & d & Hd) | Hfail]; [left | right; exact Hfail].
    exists sent, d, i. auto. }
  destruct Hreq as [ | | | | data package_name Hpk | data direction Hdir Hin ];
    unfold handle, Api.power, Api.volume_up, Api.volume_down,
      Api.volume_mute, Api.launch_app, Api.navigate, login_required.
  1-4: eapply Hrelay; reflexivity.
  - unfold bind at 1, getitem. rewrite (present_not_missing _ _ _ Hpk). simpl.
    rewrite Hpk. simpl. eapply Hrelay; reflexivity.
  - unfold bind at 1, getitem. rewrite (present_not_missing _ _ _ Hdir). simpl.
    rewrite Hdir. simpl. rewrite bool_decide_eq_true_2 by exact Hin.
    destruct (keycode_map_inside _ Hin) as [keycode Hk].
    eapply Hrelay.
    + unfold navigate. rewrite Hk. reflexivity.
    + simpl. rewrite Hk. reflexivity.
Qed.

End RouteOutcome.

Lemma stale_app_connected : cache_connected "192.168.1.100" 5555 stale_app.
Proof.
  intros uid l H. simpl in H.
  apply lookup_singleton_Some in H as [_ <-]. simpl.
  rewrite lookup_singleton_eq. eauto.
Qed.

Lemma route_outcome_witness :
  let '(r, st') := handle steady "192.168.1.100" 5555 (Some alice) PostPower
                     stale_app in
  exists delta,
    trace (app_world st') = trace (app_world stale_app) ++ delta /\
    (length (connect_attempts delta) <= 2)%nat /\
    (transport_writes delta <= 2)%nat /\
    match r with
    | Returned resp =>
        (exists message d i,
           resp = Json 200 "success" message /\
           transport_writes delta = 2%nat /\
           instruction Power = Some i /\
           instructions delta = [EvShell d i true]) \/
        (exists message,
           resp = Json 500 "error" message /\
           List.filter completed (instructions delta) = [])
    | Raised e =>
        is_Exception e = false /\ List.filter completed (instructions delta) = []
    end.
Proof.
  exact (route_outcome steady "192.168.1.100" 5555 PostPower Power alice
           stale_app carries_power stale_app_connected).
Defined.

(** * Further facts about the auth blueprint *)

(** The callback logs somebody in only when it answers with the redirect to
    [/], and then the session holds the token's user information and the
    logged-in user is built from it.  A 400 or 403 answer leaves the session
    as it was; an exception leaves the login as it was. *)
Theorem callback_logs_in_only_on_redirect (ALLOWED_EMAILS : list string)
    (authorize_access_token : outcome Auth.Token) (s : Auth.FlaskSession) :
  let '(r, s') := Auth.callback ALLOWED_EMAILS authorize_access_token s in
  match r with
  | Returned (Redirect target) =>
      target = "/" /\
      exists token user_info u,
        authorize_access_token = Returned token /\
        Auth.userinfo token = Some user_info /\
        user_info !! "sub" = Some (user_id u) /\
        user_info !! "email" = Some (user_email u) /\
        user_info !! "name" = Some (user_name u) /\
        user_picture u = default "" (user_info !! "picture") /\
        (ALLOWED_EMAILS = [] \/ user_email u ∈ ALLOWED_EMAILS) /\
        s' = {| Auth.session_user_info := Some user_info;
                Auth.logged_in := Some u |}
  | Returned (Json code status _) =>
      (code = 400 \/ code = 403) /\ status = "error" /\ s' = s
  | Raised _ => Auth.logged_in s' = Auth.logged_in s
  end.
Proof.
  unfold Auth.callback, Auth.email_refused, Auth.store_user_info,
    Auth.login_user, bind, getitem, modify, ret, raise.
  destruct authorize_access_token as [[[ui|]]|e]; simpl; auto.
  case_bool_decide as Hempty; simpl; [auto |].
  destruct (ui !! "email") as [email|] eqn:Hemail;
    destruct (ui !! "sub") as [sub|] eqn:Hsub;
    destruct (ui !! "name") as [name|] eqn:Hname;
    destruct ALLOWED_EMAILS as [|a rest] eqn:Hlist; simpl;
    try case_bool_decide; simpl; auto.
  all: split; [reflexivity |].
  all: exists {| Auth.userinfo := Some ui |}, ui,
         {| user_id := sub; user_email := email; user_name := name;
            user_picture := default "" (ui !! "picture") |}.
  all: simpl; rewrite ?Hemail, ?Hsub, ?Hname; auto 10.
Qed.

(** A token whose user information has [sub], [email] and [name], with an
    email the allow-list has (or an empty allow-list): the callback
    redirects to [/], stores the user information in the session and logs
    in the user built from it, the picture defaulting to the empty string. *)
Theorem listed_email_is_logged_in (ALLOWED_EMAILS : list string)
    (token : Auth.Token) (user_info : gmap string string)
    (sub email name : string) (s : Auth.FlaskSession) :
  Auth.userinfo token = Some user_info ->
  user_info !! "sub" = Some sub ->
  user_info !! "email" = Some email ->
  user_info !! "name" = Some name ->
  ALLOWED_EMAILS = [] \/ email ∈ ALLOWED_EMAILS ->
  Auth.callback ALLOWED_EMAILS (Returned token) s
  = (Returned (Redirect "/"),
     {| Auth.session_user_info := Some user_info;
        Auth.logged_in :=
          Some {| user_id := sub; user_email := email; user_name := name;
                  user_picture := default "" (user_info !! "picture") |} |}).
Proof.
  intros Hui Hsub Hemail Hname Hok.
  unfold Auth.callback, bind. simpl. rewrite Hui. simpl.
  rewrite bool_decide_eq_false_2.
  2: { intros ->. rewrite lookup_empty in Hemail. discriminate. }
  assert (Hpass : Auth.email_refused ALLOWED_EMAILS user_info s
                  = (Returned false, s)).
  { unfold Auth.email_refused.
    destruct Hok as [-> | Hin]; [reflexivity |].
    destruct ALLOWED_EMAILS as [|a rest]; [reflexivity |].
    unfold bind, getitem. rewrite Hemail. simpl.
    rewrite bool_decide_eq_true_2 by exact Hin. reflexivity. }
  rewrite Hpass.
  unfold Auth.store_user_info, Auth.login_user, bind, getitem, modify, ret.
  simpl. rewrite Hsub, Hemail, Hname. reflexivity.
Qed.

Lemma listed_email_is_logged_in_witness :
  Auth.callback ["bob@example.com"; "alice@example.com"] (Returned alice_token)
    no_session
  = (Returned (Redirect "/"),
     {| Auth.session_user_info := Auth.userinfo alice_token;
        Auth.logged_in := Some alice |}).
Proof.
  assert (Hin : "alice@example.com" ∈ ["bob@example.com"; "alice@example.com"])
    by (rewrite !elem_of_cons; auto).
  exact (listed_email_is_logged_in ["bob@example.com"; "alice@example.com"]
           alice_token
           (list_to_map [("sub", "1001"); ("email", "alice@example.com");
                         ("name", "Alice")])
           "1001" "alice@example.com" "Alice" no_session
           eq_refl eq_refl eq_refl eq_refl (or_intror Hin)).
Defined.

(** The user information is stored in the session before the user is built
    from it.  A token that passes the allow-list but lacks [sub], [email] or
    [name] makes the callback raise KeyError with the session already
    holding the user information and the login untouched. *)
Theorem incomplete_userinfo_is_half_stored (ALLOWED_EMAILS : list string)
    (token : Auth.Token) (user_info : gmap string string)
    (s : Auth.FlaskSession) :
  Auth.userinfo token = Some user_info ->
  user_info <> ∅ ->
  ALLOWED_EMAILS = [] \/
    (exists email, user_info !! "email" = Some email /\ email ∈ ALLOWED_EMAILS) ->
  user_info !! "sub" = None \/ user_info !! "email" = None \/
    user_info !! "name" = None ->
  Auth.callback ALLOWED_EMAILS (Returned token) s
  = (Raised (PyException "KeyError"),
     {| Auth.session_user_info := Some user_info;
        Auth.logged_in := Auth.logged_in s |}).
Proof.
  intros Hui Hne Hok Hmiss.
  unfold Auth.callback, bind. simpl. rewrite Hui. simpl.
  rewrite bool_decide_eq_false_2 by exact Hne.
  assert (Hpass : Auth.email_refused ALLOWED_EMAILS user_info s
                  = (Returned false, s)).
  { unfold Auth.email_refused.
    destruct Hok as [-> | (email & Hemail & Hin)]; [reflexivity |].
    destruct ALLOWED_EMAILS as [|a rest]; [reflexivity |].
    unfold bind, getitem. rewrite Hemail. simpl.
    rewrite bool_decide_eq_true_2 by exact Hin. reflexivity. }
  rewrite Hpass.
  unfold Auth.store_user_info, Auth.login_user, bind, getitem, modify, ret,
    raise. simpl.
  destruct (user_info !! "sub"); simpl; [| reflexivity].
  destruct (user_info !! "email"); simpl; [| reflexivity].
  destruct (user_info !! "name"); simpl; [| reflexivity].
  destruct Hmiss as [H | [H | H]]; discriminate.
Qed.

Lemma incomplete_userinfo_is_half_stored_witness :
  Auth.callback ["alice@example.com"]
    (Returned {| Auth.userinfo := Some {[ "email" := "alice@example.com" ]} |})
    no_session
  = (Raised (PyException "KeyError"),
     {| Auth.session_user_info := Some {[ "email" := "alice@example.com" ]};
        Auth.logged_in := None |}).
Proof.
  apply (incomplete_userinfo_is_half_stored ["alice@example.com"]
           {| Auth.userinfo := Some {[ "email" := "alice@example.com" ]} |}
           {[ "email" := "alice@example.com" ]} no_session).
  - reflexivity.
  - intros H. apply (f_equal (fun m => m !! "email")) in H.
    rewrite lookup_singleton_eq, lookup_empty in H. discriminate.
  - right. exists "alice@example.com". split; [reflexivity |].
    rewrite elem_of_cons. auto.
  - left. reflexivity.
Defined.

(** After a callback that answered with the redirect, [load_user] gives back
    the user the callback logged in, and it does so for every non-empty id:
    the id it is asked for is not compared with anything. *)
Theorem load_user_after_callback (ALLOWED_EMAILS : list string)
    (authorize_access_token : outcome Auth.Token) (s : Auth.FlaskSession)
    (c : ascii) (rest : string) :
  let '(r, s') := Auth.callback ALLOWED_EMAILS authorize_access_token s in
  r = Returned (Redirect "/") ->
  is_Some (Auth.logged_in s') /\
  Auth.load_user (Some (String c rest)) s' = (Returned (Auth.logged_in s'), s').
Proof.
  unfold Auth.callback, Auth.email_refused, Auth.store_user_info,
    Auth.login_user, bind, getitem, modify, ret, raise.
  destruct authorize_access_token as [[[ui|]]|e]; simpl; try discriminate.
  case_bool_decide as Hempty; simpl; [discriminate |].
  destruct (ui !! "email") as [email|] eqn:Hemail;
    destruct (ui !! "sub") as [sub|] eqn:Hsub;
    destruct (ui !! "name") as [name|] eqn:Hname;
    destruct ALLOWED_EMAILS as [|a rest']; simpl;
    try case_bool_decide; simpl; try discriminate.
  all: intros _; split; [eauto |].
  all: unfold Auth.load_user, bind, gets, getitem, ret; simpl.
  all: rewrite Hemail, Hsub, Hname; reflexivity.
Qed.

(** [logout] by a logged-in user answers 200 and leaves a session without
    user information and without a login, on which [load_user] finds nobody
    whatever id it is given.  Without a logged-in user it redirects to the
    login page and touches nothing. *)
Theorem logout_clears_the_session (s : Auth.FlaskSession) :
  (forall (u : User) (id : option string),
     let '(r, s') := Auth.logout (Some u) s in
     r = Returned (Json 200 "success" "Logged out successfully") /\
     s' = no_session /\
     Auth.load_user id s' = (Returned None, s')) /\
  Auth.logout None s = (Returned (Redirect "/auth/login"), s).
Proof.
  split; [| reflexivity].
  intros u id. simpl. repeat split.
  unfold Auth.load_user, bind, gets. simpl.
  destruct id as [[|c rest]|]; reflexivity.
Qed.

(** ** The allow-list as read from the environment *)

Lemma split_join (s : string) (sep : ascii) :
  Api.join (String sep "") (split s sep) = s.
Proof.
  induction s as [|c rest IH]; simpl; [reflexivity |].
  destruct (Ascii.eqb c sep) eqn:Hc.
  - apply Ascii.eqb_eq in Hc. subst c.
    destruct (split rest sep) as [|w ws] eqn:Hs.
    + exfalso. exact (split_not_empty _ _ Hs).
    + change (Api.join (String sep "") ("" :: w :: ws))
        with (String sep (Api.join (String sep "") (w :: ws))).
      rewrite IH. reflexivity.
  - destruct (split rest sep) as [|w ws] eqn:Hs.
    + exfalso. exact (split_not_empty _ _ Hs).
    + destruct ws as [|w' ws]; simpl in *; rewrite <- IH; reflexivity.
Qed.

Lemma split_pieces_lack_sep (s : string) (sep : ascii) :
  forall piece, piece ∈ split s sep -> ~ In sep (list_ascii_of_string piece).
Proof.
  induction s as [|c rest IH]; simpl; intros piece Hin.
  - apply elem_of_cons in Hin as [-> | Hin]; [simpl; auto |].
    apply elem_of_nil in Hin. contradiction.
  - destruct (Ascii.eqb c sep) eqn:Hc.
    + apply elem_of_cons in Hin as [-> | Hin]; [simpl; auto | exact (IH _ Hin)].
    + apply Ascii.eqb_neq in Hc.
      destruct (split rest sep) as [|w ws] eqn:Hs.
      * exfalso. exact (split_not_empty _ _ Hs).
      * apply elem_of_cons in Hin as [-> | Hin].
        -- simpl. intros [Heq | Hw]; [exact (Hc Heq) |].
           apply (IH w); [apply elem_of_cons; auto | exact Hw].
        -- apply IH. apply elem_of_cons. auto.
Qed.

(** The allow-list is the variable cut at its commas and nothing else: it is
    never empty, no entry holds a comma, and the entries joined by commas
    give the variable back character for character, so spaces around an
    address or a trailing comma stay in the entries. *)
Theorem allow_list_is_the_comma_pieces (environ : gmap string string) :
  Config_ALLOWED_EMAILS environ <> [] /\
  Api.join "," (Config_ALLOWED_EMAILS environ)
    = getenv environ "ALLOWED_EMAILS" "" /\
  (forall piece,
     piece ∈ Config_ALLOWED_EMAILS environ ->
     ~ In ","%char (list_ascii_of_string piece)).
Proof.
  unfold Config_ALLOWED_EMAILS.
  generalize (getenv environ "ALLOWED_EMAILS" ""). intros s.
  split; [apply split_not_empty |].
  split; [apply split_join | apply split_pieces_lack_sep].
Qed.

(** ** Requests of a user who has a live controller, and requests in general *)

Section SteadyState.
Context {W : Type} (T : Transport W).
Context (ANDROID_TV_IP : string) (ANDROID_TV_PORT : Z).

Local Abbreviation relay := (Api.relay T ANDROID_TV_IP ANDROID_TV_PORT).

Lemma relay_cached_live (u : User) (st : App W) (i sent failed : string)
    (l : nat) (o : TVController) (d : Device) (out : string) (w1 : W) :
  tv_controller_cache st !! user_id u = Some l ->
  heap st !! l = Some o ->
  device o = Some d ->
  adb_shell T d probe_cmd (tstate (app_world st)) = (Returned out, w1) ->
  let '(_, st') := relay u (dispatch_shell T i) sent failed st in
  trace (app_world st') =
    trace (app_world st)
    ++ [EvShell d probe_cmd true;
        EvShell d i
          match fst (adb_shell T d i w1) with
          | Returned _ => true
          | Raised _ => false
          end] /\
  tv_controller_cache st' = tv_controller_cache st /\
  heap st' = heap st.
Proof.
  intros Hu Hl Hd Hp.
  unfold Api.relay, bind.
  rewrite (get_tv_controller_cached T _ _ _ _ _ Hu).
  unfold on_object. rewrite Hl.
  destruct o as [h p cl dev]. simpl in Hd. subst dev.
  unfold_m. simpl. rewrite Hp. simpl.
  destruct (adb_shell T d i w1) as [[o|[m|m]] w2]; simpl.
  all: rewrite <- !app_assoc, (insert_id _ _ _ Hl); auto.
Qed.

(** A request that carries a command, from a user whose cached controller
    holds a device that answers the probe: the transport sees the probe and
    the instruction on that device and nothing else, no connect; the cache
    and the controller objects are what they were. *)
Theorem cached_dispatch_does_not_connect (req : request) (c : command)
    (u : User) (st : App W) (l : nat) (o : TVController) (d : Device)
    (out : string) (w1 : W) :
  carries req c ->
  tv_controller_cache st !! user_id u = Some l ->
  heap st !! l = Some o ->
  device o = Some d ->
  adb_shell T d probe_cmd (tstate (app_world st)) = (Returned out, w1) ->
  let '(_, st') := handle T ANDROID_TV_IP ANDROID_TV_PORT (Some u) req st in
  exists i,
    instruction c = Some i /\
    trace (app_world st') =
      trace (app_world st)
      ++ [EvShell d probe_cmd true;
          EvShell d i
            match fst (adb_shell T d i w1) with
            | Returned _ => true
            | Raised _ => false
            end] /\
    tv_controller_cache st' = tv_controller_cache st /\
    heap st' = heap st.
Proof.
  intros Hreq Hu Hl Hd Hp.
  assert (Hrelay : forall i m sent failed,
            m = dispatch_shell T i ->
            instruction c = Some i ->
            let '(_, st') := relay u m sent failed st in
            exists i,
              instruction c = Some i /\
              trace (app_world st') =
                trace (app_world st)
                ++ [EvShell d probe_cmd true;
                    EvShell d i
                      match fst (adb_shell T d i w1) with
                      | Returned _ => true
                      | Raised _ => false
                      end] /\
              tv_controller_cache st' = tv_controller_cache st /\
              heap st' = heap st).
  { intros i m sent failed -> Hi.
    pose proof (relay_cached_live u st i sent failed l o d out w1 Hu Hl Hd Hp)
      as H.
    destruct (relay u (dispatch_shell T i) sent failed st) as [r st'].
    exists i. auto. }
  destruct Hreq as [ | | | | data package_name Hpk | data direction Hdir Hin ];
    unfold handle, Api.power, Api.volume_up, Api.volume_down,
      Api.volume_mute, Api.launch_app, Api.navigate, login_required.
  1-4: eapply Hrelay; reflexivity.
  - unfold bind at 1, getitem. rewrite (present_not_missing _ _ _ Hpk). simpl.
    rewrite Hpk. simpl. eapply Hrelay; reflexivity.
  - unfold bind at 1, getitem. rewrite (present_not_missing _ _ _ Hdir). simpl.
    rewrite Hdir. simpl. rewrite bool_decide_eq_true_2 by exact Hin.
    destruct (keycode_map_inside _ Hin) as [keycode Hk].
    eapply Hrelay.
    + unfold navigate. rewrite Hk. reflexivity.
    + simpl. rewrite Hk. reflexivity.
Qed.



End SteadyState.

Lemma cached_dispatch_does_not_connect_witness :
  let '(_, st') := handle steady "192.168.1.100" 5555 (Some alice) PostPower
                     stale_app in
  exists i,
    instruction Power = Some i /\
    trace (app_world st') = [EvShell 1%nat probe_cmd true; EvShell 1%nat i true] /\
    tv_controller_cache st' = tv_controller_cache stale_app /\
    heap st' = heap stale_app.
Proof.
  exact (cached_dispatch_does_not_connect steady "192.168.1.100" 5555
           PostPower Power alice stale_app 0%nat connected_controller 1%nat
           "" tt carries_power eq_refl eq_refl eq_refl eq_refl).
Defined.

